(** * Niti-Setu: the voice-to-profile pipeline and the eligibility analysis

    A shallow embedding of [App.tsx] (the analysis orchestrator and the
    profile merge), [services/geminiService.ts] (profile extraction and the
    eligibility evaluator) and [components/VoiceControl.tsx] (speech
    capture), followed by the properties of these functions.

    JavaScript objects are finite maps from property names to values (the
    order of the properties, which none of these functions reads, is left
    out), asynchronous functions are split at their [await] into the part
    that issues the request and the continuation that receives the answer,
    and the browser and the inference service appear as explicit
    parameters. *)

From Stdlib Require Import ZArith String List SpecFloat.
From stdpp Require Import gmap strings list fin_maps pretty.

Set Default Proof Using "Type".
Local Open Scope string_scope.

(** ** JavaScript values *)

Module JS.

(** Values as [JSON.parse] and object literals build them, and the
    functions that every object inherits, each with its source text.  A
    Number is an IEEE 754 double, in the axiom-free representation of
    [SpecFloat]. *)
#[warnings="-register-all"] Inductive JSValue : Type :=
  | JSUndefined
  | JSNull
  | JSBool (b : bool)
  | JSNumber (x : spec_float)
  | JSString (s : string)
  | JSArray (items : list JSValue)
  | JSObject (props : gmap string JSValue)
  | JSFunction (source : string).

(** A thrown value: the [name] and [message] of an Error object. *)
Record JSError : Type := mkError { err_name : string; err_message : string }.

(** The two ways a promise settles. *)
Inductive Settled (A : Type) : Type :=
  | Fulfilled (v : A)
  | Rejected (e : JSError).
Arguments Fulfilled {A} v.
Arguments Rejected {A} e.

(** Doubles: [prec = 53], [emax = 1024]. *)
Definition num (z : Z) : spec_float := binary_normalize 53 1024 z 0 false.
Definition num_div (x y : spec_float) : spec_float := SFdiv 53 1024 x y.

(** ToBoolean, as applied by [!x], [a || b] and [filter]. *)
Definition truthy (v : JSValue) : bool :=
  match v with
  | JSUndefined | JSNull => false
  | JSBool b => b
  | JSNumber (S754_zero _) | JSNumber S754_nan => false
  | JSNumber _ => true
  | JSString s => negb (String.eqb s "")
  | JSArray _ | JSObject _ | JSFunction _ => true
  end.

(** [a || b] *)
Definition js_or (a b : JSValue) : JSValue := if truthy a then a else b.

(** [o.k]: reading a property that the object does not have gives
    [undefined]. *)
Definition get (o : gmap string JSValue) (k : string) : JSValue :=
  default JSUndefined (o !! k).

Fixpoint chars (s : string) : list JSValue :=
  match s with
  | EmptyString => []
  | String c r => JSString (String c EmptyString) :: chars r
  end.

Definition indexed (l : list JSValue) : gmap string JSValue :=
  list_to_map (imap (fun (i : nat) v => (pretty i, v)) l).

(** The own enumerable properties that a spread [...v] copies: those of an
    object, the indices of an array or of a string, nothing for the other
    primitives. *)
Definition ownProps (v : JSValue) : gmap string JSValue :=
  match v with
  | JSObject m => m
  | JSArray l => indexed l
  | JSString s => indexed (chars s)
  | _ => ∅
  end.

(** One [...src] inside an object literal under construction: each own
    property of [src] is set on [target], replacing a property of the same
    name. *)
Definition spread (target : gmap string JSValue) (src : JSValue)
  : gmap string JSValue :=
  ownProps src ∪ target.

(** The integer [n] for which [n / 10 - m * 2^e] is closest to zero, the
    larger one on a tie. *)
Definition tenths (m : positive) (e : Z) : Z :=
  if (0 <=? e)%Z then (10 * Z.pos m * 2 ^ e)%Z
  else ((20 * Z.pos m + 2 ^ (- e)) / (2 * 2 ^ (- e)))%Z.

Definition show_tenths (n : Z) : string :=
  pretty (Z.to_N (n / 10)) ++ "." ++ pretty (Z.to_N (n mod 10)).

(** [x.toFixed(1)]: the tenths of [|x|], printed with the last digit after
    the point and the sign of a negative [x] in front; from [1e21] on, the
    general Number-to-string conversion [big]. *)
Definition toFixed1 (big : spec_float -> string) (x : spec_float) : string :=
  match x with
  | S754_nan => "NaN"
  | S754_infinity s => if s then "-Infinity" else "Infinity"
  | S754_zero _ => "0.0"
  | S754_finite s m e =>
    if (10 ^ 22 <=? tenths m e)%Z then big x
    else (if s then "-" else "") ++ show_tenths (tenths m e)
  end.

End JS.
Import JS.

(** ** The platform *)

(** What the browser provides and the code calls: [JSON.parse] ([None] when
    it throws a SyntaxError), [String.prototype.toUpperCase], the string
    conversion of template literals, and [Object.prototype]: the members
    that an object literal inherits and that a read [o[k]] finds when [o]
    has no entry for [k].  None of the fixed names that the code reads
    ([name], [state], [isEligible], ...) is among them. *)
Record Platform : Type := {
  JSON_parse : string -> option JSValue;
  toUpperCase : string -> string;
  ToString : JSValue -> string;
  Object_prototype : gmap string JSValue;
}.

Definition SyntaxError : JSError := mkError "SyntaxError" "Unexpected token".

(** ** The inference service: [services/geminiService.ts] *)

Module Gemini.

(** [Type.STRING], [Type.NUMBER], ... of a response schema. *)
Inductive SchemaType : Type :=
  | STRING
  | NUMBER
  | BOOLEAN
  | ARRAY (items : SchemaType).

(** The argument of [ai.models.generateContent]. *)
Record Request : Type := {
  model : string;
  contents : string;
  responseSchema : list (string * SchemaType);
  }.

(** What the awaited call gives back: it rejects, or it responds with a
    [text] that may be [undefined]. *)
Inductive Response : Type :=
  | Rejects (e : JSError)
  | Responds (text : option string).

(** What a handler does to the outside world, in the order it does it. *)
Inductive Effect : Type :=
  | GenerateContent (req : Request)
  | ConsoleError (msg : string)
  | Alert (msg : string)
  | GetUserMedia
  | RecognitionStart
  | RecognitionStop
  | RecognitionAbort
  | ProfileExtracted (profile : JSValue).

(** An async function suspended at its single [await]: the request it has
    issued and what it does with the answer. *)
Record PendingCall (A : Type) : Type := {
  request : Request;
  resume : Response -> Settled A * list Effect;
  }.
Arguments request {A} _.
Arguments resume {A} _ _.

Definition quote : string := String (Ascii.ascii_of_nat 34) EmptyString.

(** [JSON.parse(response.text)]: an [undefined] text is first converted to
    the string ["undefined"]. *)
Definition parse_text (P : Platform) (text : option string) : option JSValue :=
  JSON_parse P (default "undefined" text).

Section Service.
Context (P : Platform).
(** [SCHEME_GUIDELINES] of [constants.ts]: guideline text by scheme id. *)
Context (SCHEME_GUIDELINES : gmap string string).

Definition profileSchema : list (string * SchemaType) :=
  [("name", STRING); ("state", STRING); ("district", STRING);
   ("landHolding", NUMBER); ("cropType", STRING); ("category", STRING)].

Definition extractProfileFromText (text : string) : PendingCall JSValue :=
  {| request :=
       {| model := "gemini-3-flash-preview";
          contents :=
            "Extract a structured farmer profile from this text: "
            ++ quote ++ text ++ quote ++ ". 
    Return as JSON with: name, state, district, landHolding (number in acres), cropType, category (General/OBC/SC/ST/EWS).";
          responseSchema := profileSchema |};
     resume := fun response =>
       match response with
       | Rejects e => (Rejected e, [])
       | Responds text =>
           match parse_text P text with
           | Some v => (Fulfilled v, [])
           | None =>
               (Fulfilled (JSObject ∅),
                [ConsoleError "Failed to parse profile JSON"])
           end
       end |}.

Definition eligibilitySchema : list (string * SchemaType) :=
  [("isEligible", BOOLEAN); ("benefit", STRING); ("proofCitation", STRING);
   ("proofSnippet", STRING); ("nextSteps", ARRAY STRING);
   ("requiredDocuments", ARRAY STRING)].

(** [SCHEME_GUIDELINES[schemeId]], a read by a computed name on the object
    literal of [constants.ts]: the entry of the table, or else the member
    of [Object.prototype] of that name, or else [undefined]. *)
Definition guidelineEntry (schemeId : string) : JSValue :=
  match SCHEME_GUIDELINES !! schemeId with
  | Some text => JSString text
  | None => get (Object_prototype P) schemeId
  end.

(** [SCHEME_GUIDELINES[schemeId] || "No guidelines found."] *)
Definition guidelinesFor (schemeId : string) : JSValue :=
  js_or (guidelineEntry schemeId) (JSString "No guidelines found.").

Definition eligibilityPrompt (profile : gmap string JSValue)
    (guidelines : JSValue) : string :=
  "
    Analyze if the following farmer profile is eligible for the scheme based on the guidelines provided.
    
    FARMER PROFILE:
    Name: " ++ ToString P (get profile "name") ++ "
    State: " ++ ToString P (get profile "state") ++ "
    Land Holding: " ++ ToString P (get profile "landHolding") ++ " acres
    Category: " ++ ToString P (get profile "category") ++ "
    Crop: " ++ ToString P (get profile "cropType") ++ "

    SCHEME GUIDELINES:
    " ++ ToString P guidelines ++ "

    Return a JSON response with:
    - isEligible (boolean)
    - benefit (string describing what they get)
    - proofCitation (e.g. " ++ quote ++ "Page 2, Section 4" ++ quote ++ ")
    - proofSnippet (Direct quote from the guidelines justifying the decision)
    - nextSteps (array of strings)
    - requiredDocuments (array of strings)
  ".

(** [{ ...data, schemeId, schemeName: schemeId.toUpperCase() }] *)
Definition eligibilityResult (data : JSValue) (schemeId : string)
  : gmap string JSValue :=
  <["schemeName" := JSString (toUpperCase P schemeId)]>
    (<["schemeId" := JSString schemeId]> (spread ∅ data)).

Definition checkEligibility (profile : gmap string JSValue)
    (schemeId : string) : PendingCall (gmap string JSValue) :=
  let guidelines := guidelinesFor schemeId in
  {| request :=
       {| model := "gemini-3-flash-preview";
          contents := eligibilityPrompt profile guidelines;
          responseSchema := eligibilitySchema |};
     resume := fun response =>
       match response with
       | Rejects e => (Rejected e, [])
       | Responds text =>
           match parse_text P text with
           | Some data =>
               (Fulfilled (eligibilityResult data schemeId), [])
           | None => (Rejected SyntaxError, [])
           end
       end |}.

(** The whole call against a service that answers [response]. *)
Definition settle {A} (c : PendingCall A) (response : Response) : Settled A :=
  (resume c response).1.

End Service.

(** A value has the type a schema field asks for. *)
Fixpoint hasType (t : SchemaType) (v : JSValue) : Prop :=
  match t, v with
  | STRING, JSString _ => True
  | NUMBER, JSNumber _ => True
  | BOOLEAN, JSBool _ => True
  | ARRAY t', JSArray l => Forall (hasType t') l
  | _, _ => False
  end.

(** An object whose properties are among the schema's, each of its type. *)
Definition conformsTo (schema : list (string * SchemaType)) (v : JSValue) : Prop :=
  match v with
  | JSObject m =>
    map_Forall (fun k x => exists t, (k, t) ∈ schema /\ hasType t x) m
  | _ => False
  end.

End Gemini.

(** ** [Promise.all] *)

Module Promise.

Section All.
Context {A : Type}.
(** What an array slot holds before its promise has fulfilled. *)
Context (hole : A).

(** The record shared by the reactions that [Promise.all] attaches to its
    input promises: the array of values, the count of promises still to
    fulfil, which reactions have run, and how the combined promise has
    settled, if it has. *)
Record Join : Type := {
  values : list A;
  remaining : nat;
  alreadyCalled : gset nat;
  outcome : option (Settled (list A));
}.

Definition start (n : nat) : Join :=
  {| values := replicate n hole;
     remaining := n;
     alreadyCalled := ∅;
     outcome := if decide (n = 0) then Some (Fulfilled []) else None |}.

(** Resolving or rejecting a promise that has settled does nothing. *)
Definition settle_once (old : option (Settled (list A)))
    (new : Settled (list A)) : option (Settled (list A)) :=
  match old with
  | Some r => Some r
  | None => Some new
  end.

(** The promise at index [i] settles.  An index that names no input
    promise, or one whose reaction has already run, changes nothing. *)
Definition react (tasks : list (Settled A)) (j : Join) (i : nat) : Join :=
  match tasks !! i with
  | None => j
  | Some s =>
      if decide (i ∈ alreadyCalled j) then j
      else
        match s with
        | Fulfilled v =>
            let vals := <[i := v]> (values j) in
            let rem := remaining j - 1 in
            {| values := vals;
               remaining := rem;
               alreadyCalled := {[i]} ∪ alreadyCalled j;
               outcome := if decide (rem = 0)
                          then settle_once (outcome j) (Fulfilled vals)
                          else outcome j |}
        | Rejected e =>
            {| values := values j;
               remaining := remaining j;
               alreadyCalled := {[i]} ∪ alreadyCalled j;
               outcome := settle_once (outcome j) (Rejected e) |}
        end
  end.

(** [await Promise.all(tasks)] when the input promises settle in the order
    [order]: [None] while the combined promise is still pending. *)
Definition all (tasks : list (Settled A)) (order : list nat)
  : option (Settled (list A)) :=
  outcome (foldl (react tasks) (start (length tasks)) order).

End All.

End Promise.

(** ** The application: [App.tsx] *)

Module App.
Import Gemini.

(** An entry of [INITIAL_SCHEMES]. *)
Record Scheme : Type := {
  id : string;
  name : string;
  category : string;
  benefit : string;
}.

Record DashboardMetrics : Type := {
  schemesAnalyzed : nat;
  checksPerformed : nat;
  avgResponseTime : string;
  eligibleCount : nat;
}.

Inductive Tab : Type := TabInput | TabResults | TabDashboard.

(** The [useState] cells of the component that the analysis reads and
    writes.  The counters are Numbers holding integers far below [2^53],
    where their arithmetic is exact. *)
Record AppState : Type := {
  profile : gmap string JSValue;
  results : list (gmap string JSValue);
  isLoading : bool;
  activeTab : Tab;
  metrics : DashboardMetrics;
}.

Definition setProfile (f : gmap string JSValue -> gmap string JSValue)
    (st : AppState) : AppState :=
  {| profile := f (profile st); results := results st;
     isLoading := isLoading st; activeTab := activeTab st;
     metrics := metrics st |}.

Definition setResults (res : list (gmap string JSValue)) (st : AppState)
  : AppState :=
  {| profile := profile st; results := res; isLoading := isLoading st;
     activeTab := activeTab st; metrics := metrics st |}.

Definition setIsLoading (b : bool) (st : AppState) : AppState :=
  {| profile := profile st; results := results st; isLoading := b;
     activeTab := activeTab st; metrics := metrics st |}.

Definition setActiveTab (t : Tab) (st : AppState) : AppState :=
  {| profile := profile st; results := results st;
     isLoading := isLoading st; activeTab := t; metrics := metrics st |}.

Definition setMetrics (f : DashboardMetrics -> DashboardMetrics)
    (st : AppState) : AppState :=
  {| profile := profile st; results := results st;
     isLoading := isLoading st; activeTab := activeTab st;
     metrics := f (metrics st) |}.

(** [{ ...prev, ...extracted }] *)
Definition merge (prev : gmap string JSValue) (extracted : JSValue)
  : gmap string JSValue :=
  spread (spread ∅ (JSObject prev)) extracted.

Definition handleProfileExtracted (extracted : JSValue) (st : AppState)
  : AppState :=
  setProfile (fun prev => merge prev extracted) st.

Definition handleManualChange (updates : JSValue) (st : AppState) : AppState :=
  setProfile (fun prev => merge prev updates) st.

(** What one run of the analysis meets outside the component: the answer of
    the service to the call issued for the scheme at each catalog index, the
    order in which these calls settle, and [Date.now()] in milliseconds
    before the calls and after the join. *)
Record Env : Type := {
  answers : nat -> Response;
  completion : list nat;
  startTime : Z;
  endTime : Z;
}.

Section Analysis.
Context (P : Platform).
Context (SCHEME_GUIDELINES : gmap string string).
(** [INITIAL_SCHEMES] of [constants.ts]. *)
Context (INITIAL_SCHEMES : list Scheme).

Definition initialState : AppState :=
  {| profile := <["landHolding" := JSNumber (num 0)]>
                  (<["category" := JSString "General"]> ∅);
     results := [];
     isLoading := false;
     activeTab := TabInput;
     metrics := {| schemesAnalyzed := length INITIAL_SCHEMES;
                   checksPerformed := 0;
                   avgResponseTime := "0.0s";
                   eligibleCount := 0 |} |}.

(** [INITIAL_SCHEMES.map(scheme => checkEligibility(profile, scheme.id))] *)
Definition eligibilityChecks (prof : gmap string JSValue)
  : list (PendingCall (gmap string JSValue)) :=
  map (fun scheme => checkEligibility P SCHEME_GUIDELINES prof (id scheme))
      INITIAL_SCHEMES.

(** How each of the calls settles under [env]. *)
Definition settlements (env : Env)
    (checks : list (PendingCall (gmap string JSValue)))
  : list (Settled (gmap string JSValue)) :=
  imap (fun i c => settle c (answers env i)) checks.

(** [((Date.now() - startTime) / 1000).toFixed(1)]: the two readings of the
    clock are whole milliseconds, so their difference is exact. *)
Definition duration (env : Env) : string :=
  toFixed1 (fun x => ToString P (JSNumber x))
           (num_div (num (endTime env - startTime env)) (num 1000)).

Definition updateMetrics (env : Env) (res : list (gmap string JSValue))
    (prev : DashboardMetrics) : DashboardMetrics :=
  {| schemesAnalyzed := schemesAnalyzed prev;
     checksPerformed := checksPerformed prev + 1;
     avgResponseTime := duration env ++ "s";
     eligibleCount :=
       length (List.filter (fun r => truthy (get r "isEligible")) res) |}.

Definition runAnalysis (env : Env) (st : AppState) : AppState * list Effect :=
  if negb (truthy (get (profile st) "name"))
     || negb (truthy (get (profile st) "state"))
  then (st, [Alert "Please fill in at least Name and State."])
  else
    let st := setIsLoading true st in
    let checks := eligibilityChecks (profile st) in
    let issued := map (fun c => GenerateContent (request c)) checks in
    match Promise.all ∅ (settlements env checks) (completion env) with
    | None => (st, issued)
    | Some (Fulfilled res) =>
        let st := setResults res st in
        let st := setMetrics (updateMetrics env res) st in
        let st := setActiveTab TabResults st in
        (setIsLoading false st, issued)
    | Some (Rejected error) =>
        (setIsLoading false st,
         (issued ++ [ConsoleError "Analysis failed";
                     Alert "Something went wrong during analysis. Check your API key."])%list)
    end.

End Analysis.

End App.

(** ** Speech capture: [components/VoiceControl.tsx] *)

Module Voice.
Import Gemini.

(** The browser's [SpeechRecognition] object, as the Web Speech API
    describes it, for a single-utterance session ([continuous = false]):
    [Active] after [start()]; [Stopping] after [stop()], which ends the
    capture of audio and still tries to return a result for what was heard;
    [Ending] once a result or an error has been delivered or after
    [abort()], when only the [end] event is left. *)
Inductive Session : Type := Inactive | Active | Stopping | Ending.

Definition InvalidStateError : JSError :=
  mkError "InvalidStateError" "recognition has already started".

Definition TypeError : JSError :=
  mkError "TypeError" "Cannot read properties of null".

(** [recognition.start()] throws on an object that has been started and has
    not ended. *)
Definition rec_start (s : Session) : Session + JSError :=
  match s with
  | Inactive => inl Active
  | _ => inr InvalidStateError
  end.

Definition rec_stop (s : Session) : Session :=
  match s with
  | Active => Stopping
  | _ => s
  end.

Definition rec_abort (s : Session) : Session :=
  match s with
  | Active | Stopping => Ending
  | _ => s
  end.

(** The events of the recognition object that the component listens to. *)
Inductive RecEvent : Type :=
  | OnResult (speechToText : string)
  | OnError (code : string)
  | OnEnd.

(** Which events a session can still fire. *)
Definition fires (s : Session) (ev : RecEvent) : bool :=
  match ev, s with
  | OnResult _, (Active | Stopping) => true
  | OnError _, (Active | Stopping | Ending) => true
  | OnEnd, (Active | Stopping | Ending) => true
  | _, _ => false
  end.

Definition after (ev : RecEvent) : Session :=
  match ev with
  | OnResult _ | OnError _ => Ending
  | OnEnd => Inactive
  end.

(** How [navigator.mediaDevices.getUserMedia] settles. *)
Inductive Permission : Type :=
  | Granted
  | Refused (err : JSError).

(** The [useState] cells of the component, and the state of the recognition
    object it holds ([None]: the browser has no [SpeechRecognition]). *)
Record VoiceState : Type := {
  isListening : bool;
  transcript : string;
  isProcessing : bool;
  error : option string;
  recognition : option Session;
}.

Definition setIsListening (b : bool) (st : VoiceState) : VoiceState :=
  {| isListening := b; transcript := transcript st;
     isProcessing := isProcessing st; error := error st;
     recognition := recognition st |}.

Definition setTranscript (t : string) (st : VoiceState) : VoiceState :=
  {| isListening := isListening st; transcript := t;
     isProcessing := isProcessing st; error := error st;
     recognition := recognition st |}.

Definition setIsProcessing (b : bool) (st : VoiceState) : VoiceState :=
  {| isListening := isListening st; transcript := transcript st;
     isProcessing := b; error := error st; recognition := recognition st |}.

Definition setError (e : option string) (st : VoiceState) : VoiceState :=
  {| isListening := isListening st; transcript := transcript st;
     isProcessing := isProcessing st; error := e;
     recognition := recognition st |}.

Definition setSession (s : Session) (st : VoiceState) : VoiceState :=
  {| isListening := isListening st; transcript := transcript st;
     isProcessing := isProcessing st; error := error st;
     recognition := Some s |}.

Definition initialState (supported : bool) : VoiceState :=
  {| isListening := false; transcript := ""; isProcessing := false;
     error := None;
     recognition := if supported then Some Inactive else None |}.

(** The [catch] of [startListening]. *)
Definition microphoneError (err : JSError) : string :=
  if String.eqb (err_name err) "NotAllowedError"
     || String.eqb (err_name err) "PermissionDeniedError"
  then "Microphone permission denied. Please allow microphone access in your browser settings."
  else if String.eqb (err_name err) "NotFoundError"
          || String.eqb (err_name err) "DevicesNotFoundError"
  then "No microphone found. Please connect a microphone and try again."
  else "Could not start microphone. Ensure no other app is using it.".

(** [startListening] up to its [await]: [true] when the permission request
    has been issued. *)
Definition startListening_begin (st : VoiceState)
  : VoiceState * list Effect * bool :=
  let st := setError None st in
  let st := setTranscript "" st in
  match recognition st with
  | None =>
      (setError (Some "Speech recognition is not supported in this browser. Please try Chrome or Edge.") st,
       [], false)
  | Some _ => (st, [GetUserMedia], true)
  end.

(** [startListening] from its [await] on. *)
Definition startListening_resume (perm : Permission) (st : VoiceState)
  : VoiceState * list Effect :=
  match perm with
  | Granted =>
      let st := setIsListening true st in
      match recognition st with
      | Some s =>
          match rec_start s with
          | inl s' => (setSession s' st, [RecognitionStart])
          | inr err =>
              (setError (Some (microphoneError err)) st,
               [RecognitionStart; ConsoleError "Microphone access error:"])
          end
      | None =>
          (setError (Some (microphoneError TypeError)) st,
           [ConsoleError "Microphone access error:"])
      end
  | Refused err =>
      (setError (Some (microphoneError err)) st,
       [ConsoleError "Microphone access error:"])
  end.

Definition startListening (perm : Permission) (st : VoiceState)
  : VoiceState * list Effect :=
  let '(st, fx, awaiting) := startListening_begin st in
  if awaiting
  then let '(st, fx') := startListening_resume perm st in (st, (fx ++ fx')%list)
  else (st, fx).

Definition stopListening (st : VoiceState) : VoiceState * list Effect :=
  match recognition st with
  | Some s => (setIsListening false (setSession (rec_stop s) st),
               [RecognitionStop])
  | None => (st, [])
  end.

(** The [switch] of [recognition.onerror]. *)
Definition recognitionError (code : string) : string :=
  if String.eqb code "audio-capture"
  then "Microphone capture failed. Ensure your microphone is plugged in and not in use by another app."
  else if String.eqb code "not-allowed"
  then "Microphone access blocked. Please enable it in browser settings."
  else if String.eqb code "no-speech"
  then "No speech detected. Please try again."
  else if String.eqb code "network"
  then "Network error occurred during speech recognition."
  else "Speech recognition error: " ++ code.

Section Handlers.
Context (P : Platform).

(** [recognition.onresult] up to its [await]. *)
Definition onresult_begin (speechToText : string) (st : VoiceState)
  : VoiceState * list Effect :=
  let st := setTranscript speechToText st in
  let st := setIsListening false st in
  let st := setIsProcessing true st in
  (st, [GenerateContent (request (extractProfileFromText P speechToText))]).

(** [recognition.onresult] from its [await] on. *)
Definition onresult_resume (speechToText : string) (response : Response)
    (st : VoiceState) : VoiceState * list Effect :=
  let '(settled, fx) := resume (extractProfileFromText P speechToText) response in
  match settled with
  | Fulfilled profile =>
      (setIsProcessing false st, (fx ++ [ProfileExtracted profile])%list)
  | Rejected err =>
      let st := setError (Some "Failed to process your request. Please try speaking again.") st in
      (setIsProcessing false st,
       (fx ++ [ConsoleError "Profile extraction failed"])%list)
  end.

Definition onerror (code : string) (st : VoiceState)
  : VoiceState * list Effect :=
  let st := setIsListening false st in
  (setError (Some (recognitionError code)) st,
   [ConsoleError "Speech Recognition Error"]).

Definition onend (st : VoiceState) : VoiceState * list Effect :=
  (setIsListening false st, []).

(** The cleanup of the effect hook. *)
Definition cleanup (st : VoiceState) : VoiceState * list Effect :=
  match recognition st with
  | Some s => (setSession (rec_abort s) st, [RecognitionAbort])
  | None => (st, [])
  end.

(** The recognition object fires [ev] and the handler registered for it
    runs: [None] when the session cannot fire this event. *)
Definition deliver (ev : RecEvent) (st : VoiceState)
  : option (VoiceState * list Effect) :=
  match recognition st with
  | Some s =>
      if fires s ev
      then
        let st := setSession (after ev) st in
        Some match ev with
             | OnResult speechToText => onresult_begin speechToText st
             | OnError code => onerror code st
             | OnEnd => onend st
             end
      else None
  | None => None
  end.

(** Everything that can happen to the component.  The two continuations
    are allowed at any time, which includes the times at which their
    [await] really settles. *)
Inductive Action : Type :=
  | StartClicked
  | PermissionSettled (perm : Permission)
  | StopClicked
  | Fired (ev : RecEvent)
  | ExtractionSettled (speechToText : string) (response : Response)
  | Unmounted.

Definition step (a : Action) (st : VoiceState) : option VoiceState :=
  match a with
  | StartClicked => Some (startListening_begin st).1.1
  | PermissionSettled perm => Some (startListening_resume perm st).1
  | StopClicked => Some (stopListening st).1
  | Fired ev => fst <$> deliver ev st
  | ExtractionSettled t response => Some (onresult_resume t response st).1
  | Unmounted => Some (cleanup st).1
  end.

Inductive reachable : VoiceState -> Prop :=
  | reachable_init supported : reachable (initialState supported)
  | reachable_step a st st' :
      reachable st -> step a st = Some st' -> reachable st'.

End Handlers.

(** The states of the capture machine, read off the component. *)
Inductive Phase : Type := Idle | Listening | Processing | Failed.

Definition phase (st : VoiceState) : Phase :=
  if isProcessing st then Processing
  else if isListening st then Listening
  else match error st with Some _ => Failed | None => Idle end.

(** The machine is in Listening: a session is running, and nothing else is
    shown. *)
Definition listening (st : VoiceState) : Prop :=
  phase st = Listening /\ error st = None /\ recognition st = Some Active.

(** A running session is always shown as listening. *)
Definition active_shown (st : VoiceState) : Prop :=
  recognition st = Some Active -> isListening st = true.

End Voice.

(** ** Vocabulary of the properties *)

Module Spec.
Import Gemini App.

(** A field that is missing (reading it gives [undefined]) or empty. *)
Definition blank (v : JSValue) : Prop := v = JSUndefined \/ v = JSString "".

(** A field that holds a non-empty string. *)
Definition filled (v : JSValue) : Prop :=
  match v with
  | JSString s => s ≠ ""
  | _ => False
  end.

(** The requests to the inference service among the effects of a handler. *)
Definition remoteCalls (fx : list Effect) : list Request :=
  omap (fun f => match f with GenerateContent req => Some req | _ => None end) fx.

(** The result has [isEligible = true]. *)
Definition isEligibleTrue (r : gmap string JSValue) : bool :=
  match get r "isEligible" with
  | JSBool true => true
  | _ => false
  end.

Section Vocabulary.
Context (P : Platform).

(** The remote call errors or its output is unparseable. *)
Definition failing (response : Response) : Prop :=
  match response with
  | Rejects _ => True
  | Responds text => parse_text P text = None
  end.

(** The remote call returns output that parses. *)
Definition answering (response : Response) : Prop :=
  match response with
  | Rejects _ => False
  | Responds text => is_Some (parse_text P text)
  end.

(** The verdict for the scheme at catalog index [i], from the answer of the
    service to the call issued for it. *)
Definition verdictOf (env : Env) (i : nat) (scheme : Scheme)
  : gmap string JSValue :=
  match answers env i with
  | Responds text =>
      eligibilityResult P (default JSUndefined (parse_text P text)) (id scheme)
  | Rejects _ => ∅
  end.

(** One verdict per catalog entry, in catalog order. *)
Definition verdicts (INITIAL_SCHEMES : list Scheme) (env : Env)
  : list (gmap string JSValue) :=
  imap (verdictOf env) INITIAL_SCHEMES.

End Vocabulary.


End Spec.

(** ** A platform to run the functions on *)

Module Demo.
Import Gemini App.

Definition upper (c : Ascii.ascii) : Ascii.ascii :=
  let n := Ascii.nat_of_ascii c in
  if (97 <=? n)%nat && (n <=? 122)%nat then Ascii.ascii_of_nat (n - 32) else c.

Fixpoint asciiUpper (s : string) : string :=
  match s with
  | EmptyString => EmptyString
  | String c r => String (upper c) (asciiUpper r)
  end.

(** The JSON texts used in the examples. *)
Definition parse (s : string) : option JSValue :=
  if String.eqb s "{}" then Some (JSObject ∅)
  else if String.eqb s "null" then Some JSNull
  else if String.eqb s ("{" ++ quote ++ "isEligible" ++ quote ++ ":true}")
  then Some (JSObject {[ "isEligible" := JSBool true ]})
  else if String.eqb s ("{" ++ quote ++ "isEligible" ++ quote ++ ":false}")
  then Some (JSObject {[ "isEligible" := JSBool false ]})
  else if String.eqb s ("{" ++ quote ++ "schemeName" ++ quote ++ ":null}")
  then Some (JSObject {[ "schemeName" := JSNull ]})
  else None.

Definition show (v : JSValue) : string :=
  match v with
  | JSUndefined => "undefined"
  | JSNull => "null"
  | JSBool b => if b then "true" else "false"
  | JSString s => s
  | JSNumber _ => "0"
  | JSArray _ => ""
  | JSObject _ => "[object Object]"
  | JSFunction source => source
  end.

(** The members of [Object.prototype] used in the examples. *)
Definition objectPrototype : gmap string JSValue :=
  {[ "toString" := JSFunction "function toString() { [native code] }";
     "constructor" := JSFunction "function Object() { [native code] }" ]}.

Definition platform : Platform :=
  {| JSON_parse := parse; toUpperCase := asciiUpper; ToString := show;
     Object_prototype := objectPrototype |}.

Definition eligibleText : string :=
  "{" ++ quote ++ "isEligible" ++ quote ++ ":true}".

Definition ineligibleText : string :=
  "{" ++ quote ++ "isEligible" ++ quote ++ ":false}".

Definition guidelines : gmap string string :=
  {[ "pm-kisan" := "Small and marginal farmers with up to 2 hectares." ]}.

Definition catalog : list Scheme :=
  [ {| id := "pm-kisan"; name := "PM Kisan Samman Nidhi";
       category := "Income Support"; benefit := "Rs 6000 per year" |};
    {| id := "pmfby"; name := "Pradhan Mantri Fasal Bima Yojana";
       category := "Insurance"; benefit := "Crop insurance" |} ].

Definition rajesh : gmap string JSValue :=
  <["name" := JSString "Rajesh"]>
    (<["state" := JSString "Punjab"]>
       (<["landHolding" := JSNumber (num 4)]>
          (<["category" := JSString "General"]> ∅))).

Definition serviceDown : JSError := mkError "Error" "503 Service Unavailable".

(** The profile of Rajesh entered in the form. *)
Definition state : AppState :=
  handleManualChange (JSObject rajesh) (initialState catalog).

(** Only the state has been entered. *)
Definition nameless : AppState :=
  handleManualChange (JSObject {[ "state" := JSString "Punjab" ]})
    (initialState catalog).

(** Both calls answer, the second one first. *)
Definition goodRun : Env :=
  {| answers := fun i => match i with
                         | 0 => Responds (Some eligibleText)
                         | _ => Responds (Some ineligibleText)
                         end;
     completion := [1; 0];
     startTime := 1700000000000;
     endTime := 1700000001234 |}.

(** The second call fails, before the first one answers. *)
Definition failingRun : Env :=
  {| answers := fun i => match i with
                         | 0 => Responds (Some eligibleText)
                         | _ => Rejects serviceDown
                         end;
     completion := [1; 0];
     startTime := 1700000000000;
     endTime := 1700000001234 |}.

(** The capture component once the microphone has been granted. *)
Definition capturing : Voice.VoiceState :=
  (Voice.startListening Voice.Granted (Voice.initialState true)).1.

End Demo.

(** ** Reading prompts and durations *)

Module Text.

(** [hay] holds [value] right after [label]. *)
Definition labelled (label value hay : string) : Prop :=
  exists pre post, hay = pre ++ label ++ value ++ post.

(** [needle] occurs in [hay]. *)
Fixpoint contains (needle hay : string) : bool :=
  String.prefix needle hay
  || match hay with
     | EmptyString => false
     | String _ rest => contains needle rest
     end.

(** The decimal digit [d]. *)
Definition digit (d : Z) : Ascii.ascii := Ascii.ascii_of_nat (48 + Z.to_nat d).

(** [n] tenths, written with one digit after the point. *)
Definition oneDecimal (n : Z) : string :=
  pretty (Z.to_N (n / 10)) ++ "." ++ String (digit (n mod 10)) EmptyString.

(** [n] tenths of a second are as near to [ms] milliseconds as tenths can
    be. *)
Definition nearestTenth (ms n : Z) : Prop :=
  (0 <= n /\ Z.abs (ms - 100 * n) <= 50)%Z.

(** The largest time value of a [Date], in milliseconds. *)
Definition maxTime : Z := 8640000000000000.

(** Nothing but [true] makes the result count as eligible. *)
Definition strictVerdict (r : gmap string JSValue) : Prop :=
  truthy (get r "isEligible") = true -> get r "isEligible" = JSBool true.

End Text.

(** ** A service that does not keep to the schema *)

Module Untyped.
Import Gemini App.

(** The text in which [isEligible] is the string [false]. *)
Definition stringText : string :=
  "{" ++ quote ++ "isEligible" ++ quote ++ ":" ++ quote ++ "false" ++ quote ++ "}".

Definition parse (s : string) : option JSValue :=
  if String.eqb s stringText
  then Some (JSObject {[ "isEligible" := JSString "false" ]})
  else Demo.parse s.

Definition platform : Platform :=
  {| JSON_parse := parse; toUpperCase := Demo.asciiUpper;
     ToString := Demo.show; Object_prototype := Demo.objectPrototype |}.

(** Both calls answer with the string. *)
Definition stringRun : Env :=
  {| answers := fun _ => Responds (Some stringText);
     completion := [0; 1];
     startTime := 1700000000000;
     endTime := 1700000001234 |}.

End Untyped.

(** ** Invariants of the join *)

Section JoinInvariants.
Context {A : Type}.

(** While all the input promises fulfil, with the values [vs]: the slots of
    the reactions that have run hold their values, the count is the number
    of reactions still to run, and the combined promise is fulfilled exactly
    when the count has reached zero. *)
Definition join_filling (vs : list A) (j : Promise.Join (A:=A)) : Prop :=
  length (Promise.values j) = length vs /\
  (forall i, i ∈ Promise.alreadyCalled j ->
     i < length vs /\ Promise.values j !! i = vs !! i) /\
  Promise.remaining j + size (Promise.alreadyCalled j) = length vs /\
  Promise.outcome j =
    if decide (Promise.remaining j = 0)
    then Some (Fulfilled (Promise.values j)) else None.

(** When the input promise [k] rejects: the count is kept above zero by
    [k], whose reaction never decrements it, so the combined promise is
    never fulfilled, and it has settled once the reaction of [k] has run. *)
Definition join_failing (tasks : list (Settled A)) (k : nat)
    (j : Promise.Join (A:=A)) : Prop :=
  exists F : gset nat,
    F ⊆ Promise.alreadyCalled j /\
    (forall i, i ∈ F -> i < length tasks /\ i ≠ k) /\
    Promise.remaining j + size F = length tasks /\
    (forall vs, Promise.outcome j ≠ Some (Fulfilled vs)) /\
    (k ∈ Promise.alreadyCalled j -> is_Some (Promise.outcome j)).

End JoinInvariants.

(** ** The login form: [components/AuthForm.tsx] *)

Module User.

(** The argument of [onLogin]. *)
Record UserData : Type := { email : string; name : string }.

End User.

Module AuthForm.

Record FormState : Type := {
  isLogin : bool;
  email : string;
  password : string;
  name : string;
  isLoading : bool;
}.

Definition initialState : FormState :=
  {| isLogin := true; email := ""; password := ""; name := "";
     isLoading := false |}.

Definition setIsLogin (b : bool) (st : FormState) : FormState :=
  {| isLogin := b; email := email st; password := password st;
     name := name st; isLoading := isLoading st |}.

Definition setEmail (v : string) (st : FormState) : FormState :=
  {| isLogin := isLogin st; email := v; password := password st;
     name := name st; isLoading := isLoading st |}.

Definition setPassword (v : string) (st : FormState) : FormState :=
  {| isLogin := isLogin st; email := email st; password := v;
     name := name st; isLoading := isLoading st |}.

Definition setName (v : string) (st : FormState) : FormState :=
  {| isLogin := isLogin st; email := email st; password := password st;
     name := v; isLoading := isLoading st |}.

Definition setIsLoading (b : bool) (st : FormState) : FormState :=
  {| isLogin := isLogin st; email := email st; password := password st;
     name := name st; isLoading := b |}.

(** The link under the form: [setIsLogin(!isLogin)]. *)
Definition toggleMode (st : FormState) : FormState :=
  setIsLogin (negb (isLogin st)) st.

(** What the user does to the form before submitting it.  The name field
    is rendered in sign-up mode only. *)
Inductive Edit : Type :=
  | TypeEmail (v : string)
  | TypePassword (v : string)
  | TypeName (v : string)
  | ToggleMode.

Definition edit (st : FormState) (e : Edit) : FormState :=
  match e with
  | TypeEmail v => setEmail v st
  | TypePassword v => setPassword v st
  | TypeName v => if isLogin st then st else setName v st
  | ToggleMode => toggleMode st
  end.

(** The callback handed to [setTimeout]: it calls [onLogin] with the email
    and the name of the render that was submitted, [name || 'Farmer'], and
    ends the loading state. *)
Definition timeoutCallback (submitted : FormState) (st : FormState)
  : User.UserData * FormState :=
  ({| User.email := email submitted;
      User.name := if String.eqb (name submitted) "" then "Farmer"
                   else name submitted |},
   setIsLoading false st).

(** [handleSubmit]: the form starts loading and the callback is scheduled,
    1200 ms ahead. *)
Definition handleSubmit (st : FormState)
  : FormState * (nat * (FormState -> User.UserData * FormState)) :=
  (setIsLoading true st, (1200, timeoutCallback st)).

End AuthForm.

(** ** The rest of [App.tsx] *)

Module Shell.
Import Gemini.

(** The application state with its two authentication cells. *)
Record ShellState : Type := {
  isAuthenticated : bool;
  user : option User.UserData;
  app : App.AppState;
}.

(** [{ category: 'General', landHolding: 0 }] *)
Definition defaultProfile : gmap string JSValue :=
  <["landHolding" := JSNumber (num 0)]>
    (<["category" := JSString "General"]> ∅).

Definition handleLogin (userData : User.UserData) (sh : ShellState)
  : ShellState :=
  {| isAuthenticated := true; user := Some userData; app := app sh |}.

Definition handleLogout (sh : ShellState) : ShellState :=
  {| isAuthenticated := false;
     user := None;
     app := App.setActiveTab App.TabInput
              (App.setProfile (fun _ => defaultProfile)
                 (App.setResults [] (app sh))) |}.

Definition onApp (f : App.AppState -> App.AppState) (sh : ShellState)
  : ShellState :=
  {| isAuthenticated := isAuthenticated sh; user := user sh;
     app := f (app sh) |}.

Section Interleaved.
Context (P : Platform).
Context (SCHEME_GUIDELINES : gmap string string).
Context (INITIAL_SCHEMES : list App.Scheme).

Definition initialState : ShellState :=
  {| isAuthenticated := false; user := None;
     app := App.initialState INITIAL_SCHEMES |}.

(** [runAnalysis] up to its [await]: the calls it has issued, if the guard
    let it issue them. *)
Definition runAnalysis_begin (st : App.AppState)
  : App.AppState * list Effect
    * option (list (PendingCall (gmap string JSValue))) :=
  if negb (truthy (get (App.profile st) "name"))
     || negb (truthy (get (App.profile st) "state"))
  then (st, [Alert "Please fill in at least Name and State."], None)
  else
    let st := App.setIsLoading true st in
    let checks :=
      App.eligibilityChecks P SCHEME_GUIDELINES INITIAL_SCHEMES (App.profile st) in
    (st, map (fun c => GenerateContent (request c)) checks, Some checks).

(** [runAnalysis] from its [await] on, in the state the component has when
    the join settles. *)
Definition runAnalysis_resume (env : App.Env)
    (joined : Settled (list (gmap string JSValue))) (st : App.AppState)
  : App.AppState * list Effect :=
  match joined with
  | Fulfilled res =>
      let st := App.setResults res st in
      let st := App.setMetrics (App.updateMetrics P env res) st in
      let st := App.setActiveTab App.TabResults st in
      (App.setIsLoading false st, [])
  | Rejected error =>
      (App.setIsLoading false st,
       [ConsoleError "Analysis failed";
        Alert "Something went wrong during analysis. Check your API key."])
  end.

(** The join of the calls that a run issued for the profile [prof]. *)
Definition joinOf (env : App.Env) (prof : gmap string JSValue)
  : option (Settled (list (gmap string JSValue))) :=
  Promise.all ∅
    (App.settlements env
       (App.eligibilityChecks P SCHEME_GUIDELINES INITIAL_SCHEMES prof))
    (App.completion env).

(** Everything that can happen to the application.  The continuation of a
    run is allowed whenever the join of a run has settled, for whatever
    profile the run was started with: nothing cancels a run in flight. *)
Inductive Action : Type :=
  | LoggedIn (userData : User.UserData)
  | LoggedOut
  | VoiceExtracted (extracted : JSValue)
  | FormChanged (updates : JSValue)
  | TabClicked (tab : App.Tab)
  | AnalysisStarted
  | AnalysisSettled (env : App.Env) (prof : gmap string JSValue).

Definition step (a : Action) (sh : ShellState) : option ShellState :=
  match a with
  | LoggedIn userData => Some (handleLogin userData sh)
  | LoggedOut => Some (handleLogout sh)
  | VoiceExtracted extracted => Some (onApp (App.handleProfileExtracted extracted) sh)
  | FormChanged updates => Some (onApp (App.handleManualChange updates) sh)
  | TabClicked tab => Some (onApp (App.setActiveTab tab) sh)
  | AnalysisStarted => Some (onApp (fun st => (runAnalysis_begin st).1.1) sh)
  | AnalysisSettled env prof =>
      (fun joined => onApp (fun st => (runAnalysis_resume env joined st).1) sh)
        <$> joinOf env prof
  end.

Inductive reachable : ShellState -> Prop :=
  | reachable_init : reachable initialState
  | reachable_step a sh sh' :
      reachable sh -> step a sh = Some sh' -> reachable sh'.

(** The run under [env] on the profile [prof] stores a result set. *)
Definition succeeds (prof : gmap string JSValue) (env : App.Env) : bool :=
  truthy (get prof "name") && truthy (get prof "state") &&
  match joinOf env prof with
  | Some (Fulfilled _) => true
  | _ => false
  end.

(** One run after the other, each one over before the next begins. *)
Definition runs (envs : list App.Env) (st : App.AppState) : App.AppState :=
  foldl (fun st env =>
           (App.runAnalysis P SCHEME_GUIDELINES INITIAL_SCHEMES env st).1)
        st envs.

(** What the dashboard and the header of the results tab rely on. *)
Definition consistent (st : App.AppState) : Prop :=
  App.schemesAnalyzed (App.metrics st) = length INITIAL_SCHEMES /\
  (App.results st = [] \/ length (App.results st) = length INITIAL_SCHEMES) /\
  (App.eligibleCount (App.metrics st) ≤ length INITIAL_SCHEMES)%nat /\
  (App.results st ≠ [] ->
   App.eligibleCount (App.metrics st)
   = length (List.filter (fun r => truthy (get r "isEligible"))
               (App.results st))) /\
  is_Some (App.profile st !! "category") /\
  is_Some (App.profile st !! "landHolding").

End Interleaved.

End Shell.

(** ** Speech synthesis: [generateSpeech] of [services/geminiService.ts] *)

Module Speech.
Import Gemini.

(** The argument of the text-to-speech call. *)
Record SpeechRequest : Type := {
  model : string;
  text : string;
  responseModalities : list string;
  voiceName : string;
}.

(** How the awaited call settles: the response is an object whose parts
    may all be missing. *)
Inductive SpeechResponse : Type :=
  | Fails (e : JSError)
  | Returns (response : JSValue).

(** [v.k]: [None] when it throws, on [undefined] and [null]. *)
Definition member (v : JSValue) (k : string) : option JSValue :=
  match v with
  | JSUndefined | JSNull => None
  | _ => Some (get (ownProps v) k)
  end.

(** [v?.k] and [v?.[i]], with the index as a property name. *)
Definition optional (v : JSValue) (k : string) : JSValue :=
  default JSUndefined (member v k).

(** [candidates?.[0]?.content?.parts?.[0]?.inlineData?.data] *)
Definition inlineAudio (candidates : JSValue) : JSValue :=
  optional
    (optional
       (optional (optional (optional (optional candidates "0") "content") "parts")
          "0")
       "inlineData")
    "data".

Definition speechRequest (words : string) : SpeechRequest :=
  {| model := "gemini-2.5-flash-preview-tts";
     text := "Speak in a helpful, friendly voice for a farmer: " ++ words;
     responseModalities := ["AUDIO"];
     voiceName := "Kore" |}.

(** [generateSpeech] from its [await] on: the value its promise is
    fulfilled with, [null] included. *)
Definition generateSpeech (words : string) (settled : SpeechResponse)
  : JSValue * list Effect :=
  match settled with
  | Fails e => (JSNull, [ConsoleError "TTS failed"])
  | Returns response =>
      match member response "candidates" with
      | None => (JSNull, [ConsoleError "TTS failed"])
      | Some candidates =>
          let base64Audio := inlineAudio candidates in
          if truthy base64Audio then (base64Audio, []) else (JSNull, [])
      end
  end.

(** A response that carries [audio] as the inline data of the first part
    of its first candidate. *)
Definition carrying (audio : JSValue) : JSValue :=
  JSObject {[ "candidates" :=
    JSArray [JSObject {[ "content" :=
      JSObject {[ "parts" :=
        JSArray [JSObject {[ "inlineData" :=
          JSObject {[ "data" := audio ]} ]}] ]} ]}] ]}.

End Speech.

(** ** The microphone button and the way to the profile *)

Module Button.
Import Gemini Voice.

(** [onClick={isListening ? stopListening : startListening}], on a button
    that is disabled while a transcript is processed. *)
Definition handleClick (perm : Permission) (st : VoiceState)
  : VoiceState * list Effect :=
  if isProcessing st then (st, [])
  else if isListening st then stopListening st
  else startListening perm st.

(** Clicks one after the other, each with the answer that the permission
    prompt would give. *)
Fixpoint clicks (perms : list Permission) (st : VoiceState)
  : VoiceState * list Effect :=
  match perms with
  | [] => (st, [])
  | perm :: rest =>
      let '(st, fx) := handleClick perm st in
      let '(st, fx') := clicks rest st in
      (st, (fx ++ fx')%list)
  end.

Section Traces.
Context (P : Platform).

(** A sequence of actions of the component: [None] when the recognition
    object cannot fire one of them. *)
Fixpoint steps (actions : list Action) (st : VoiceState) : option VoiceState :=
  match actions with
  | [] => Some st
  | a :: rest =>
      match step P a st with
      | Some st => steps rest st
      | None => None
      end
  end.

(** The effects that reach the application: [onProfileExtracted] is
    [handleProfileExtracted]. *)
Definition dispatch (fx : list Effect) (st : App.AppState) : App.AppState :=
  foldl (fun st f =>
           match f with
           | ProfileExtracted extracted => App.handleProfileExtracted extracted st
           | _ => st
           end)
        st fx.

(** A result of the recognition and the answer of the service to the
    extraction it starts, for the component and the application. *)
Definition heard (speechToText : string) (response : Response)
    (st : VoiceState) (ast : App.AppState)
  : option (VoiceState * App.AppState) :=
  match deliver P (OnResult speechToText) st with
  | Some (st, _) =>
      let '(st, fx) := onresult_resume P speechToText response st in
      Some (st, dispatch fx ast)
  | None => None
  end.

End Traces.

(** The session can deliver no result. *)
Definition silent (st : VoiceState) : Prop :=
  recognition st = Some Inactive \/ recognition st = Some Ending
  \/ recognition st = None.

(** Start, stop and the [end] event that follows, [n] times over. *)
Fixpoint cycles (P : Platform) (n : nat) (st : VoiceState) : option VoiceState :=
  match n with
  | 0 => Some st
  | S n =>
      let st := (startListening Granted st).1 in
      let st := (stopListening st).1 in
      match deliver P OnEnd st with
      | Some (st, _) => cycles P n st
      | None => None
      end
  end.

End Button.

(** * Properties *)

Local Open Scope nat_scope.

(** ** The join of [Promise.all] *)

(** Project the fields of a join record without unfolding anything else. *)
Ltac join_simpl :=
  cbn [Promise.values Promise.remaining Promise.alreadyCalled Promise.outcome].

Section JoinFacts.
Context {A : Type} (hole : A).
Implicit Types (j : Promise.Join (A:=A)) (i n : nat) (order : list nat).

(** A combined promise that has settled stays as it is. *)
Lemma react_outcome_stable tasks j i r :
  Promise.outcome j = Some r ->
  Promise.outcome (Promise.react tasks j i) = Some r.
Proof.
  intros Hr. unfold Promise.react.
  destruct (tasks !! i) as [[v|e]|]; [| |done];
    case_decide; try done; simpl; rewrite Hr; simpl; by repeat case_decide.
Qed.

Lemma foldl_react_outcome_stable tasks order j r :
  Promise.outcome j = Some r ->
  Promise.outcome (foldl (Promise.react tasks) j order) = Some r.
Proof.
  revert j. induction order as [|i order IH]; intros j Hr; [done|].
  simpl. apply IH. by apply react_outcome_stable.
Qed.

Lemma react_called_mono tasks j i k :
  k ∈ Promise.alreadyCalled j ->
  k ∈ Promise.alreadyCalled (Promise.react tasks j i).
Proof.
  intros Hk. unfold Promise.react.
  destruct (tasks !! i) as [[v|e]|]; [| |done];
    case_decide; try done; simpl; set_solver.
Qed.

Lemma foldl_react_called_mono tasks order j k :
  k ∈ Promise.alreadyCalled j ->
  k ∈ Promise.alreadyCalled (foldl (Promise.react tasks) j order).
Proof.
  revert j. induction order as [|i order IH]; intros j Hk; [done|].
  simpl. apply IH. by apply react_called_mono.
Qed.

(** The reaction of every input promise that settles has run. *)
Lemma react_called tasks j i :
  i < length tasks -> i ∈ Promise.alreadyCalled (Promise.react tasks j i).
Proof.
  intros Hi. unfold Promise.react.
  destruct (lookup_lt_is_Some_2 tasks i Hi) as [s ->].
  case_decide; [done|]. destruct s; simpl; set_solver.
Qed.

Lemma foldl_react_called tasks order j i :
  i ∈ order -> i < length tasks ->
  i ∈ Promise.alreadyCalled (foldl (Promise.react tasks) j order).
Proof.
  revert j. induction order as [|k order IH]; intros j Hin Hi.
  - by apply elem_of_nil in Hin.
  - simpl. apply elem_of_cons in Hin as [->|Hin].
    + apply foldl_react_called_mono. by apply react_called.
    + by apply IH.
Qed.

(** A set of indices below [n] has at most [n] elements. *)
Lemma size_below (X : gset nat) n : (forall i, i ∈ X -> i < n) -> size X ≤ n.
Proof.
  intros HX. rewrite <- (size_set_seq (C:=gset nat) 0 n).
  apply subseteq_size. intros i Hi. apply elem_of_set_seq. specialize (HX i Hi). lia.
Qed.

Lemma size_below_without (X : gset nat) n k :
  k < n -> (forall i, i ∈ X -> i < n /\ i ≠ k) -> size X < n.
Proof.
  intros Hk HX.
  assert (size ({[k]} ∪ X) ≤ n) as Hle.
  { apply size_below. intros i [->%elem_of_singleton|Hi]%elem_of_union; [done|].
    by apply HX. }
  rewrite size_union in Hle.
  - rewrite size_singleton in Hle. lia.
  - intros i ->%elem_of_singleton Hi. by destruct (HX _ Hi).
Qed.

Lemma join_filling_start (vs : list A) :
  join_filling vs (Promise.start hole (length vs)).
Proof.
  unfold join_filling, Promise.start; join_simpl.
  rewrite length_replicate, size_empty. split_and!.
  - done.
  - by intros i ?%not_elem_of_empty.
  - lia.
  - case_decide as Hn; [|done].
    apply nil_length_inv in Hn as ->. done.
Qed.

Lemma join_filling_react (vs : list A) j i :
  join_filling vs j ->
  join_filling vs (Promise.react (Fulfilled <$> vs) j i).
Proof.
  intros Hj. pose proof Hj as (Hlen & Hvals & Hcount & Hout).
  unfold Promise.react. rewrite list_lookup_fmap.
  destruct (vs !! i) as [v|] eqn:Hv; cbn [fmap option_fmap option_map]; [|done].
  destruct (decide (i ∈ Promise.alreadyCalled j)) as [Hcalled|Hcalled]; [done|].
  assert (i < length vs) as Hi by (by eapply lookup_lt_Some).
  assert (size (Promise.alreadyCalled j) < length vs) as Hsize.
  { apply (size_below_without _ _ i Hi). intros k Hk. split.
    - by apply Hvals.
    - by intros ->. }
  assert (size ({[i]} ∪ Promise.alreadyCalled j)
          = S (size (Promise.alreadyCalled j))) as Hsize'.
  { rewrite size_union, size_singleton; [done|].
    by intros k ->%elem_of_singleton. }
  unfold join_filling; join_simpl. split_and!.
  - by rewrite length_insert.
  - intros k [->%elem_of_singleton|Hk]%elem_of_union.
    + split; [done|]. rewrite Hv. apply list_lookup_insert_eq. by rewrite Hlen.
    + destruct (Hvals k Hk) as [Hlt Heq]. split; [done|].
      rewrite list_lookup_insert_ne; [done|]. by intros ->.
  - rewrite Hsize'. lia.
  - rewrite Hout. repeat case_decide; try done; lia.
Qed.

Lemma join_filling_foldl (vs : list A) order j :
  join_filling vs j ->
  join_filling vs (foldl (Promise.react (Fulfilled <$> vs)) j order).
Proof.
  revert j. induction order as [|i order IH]; intros j Hj; [done|].
  simpl. apply IH. by apply join_filling_react.
Qed.


Lemma join_failing_start (tasks : list (Settled A)) k e :
  tasks !! k = Some (Rejected e) ->
  join_failing tasks k (Promise.start hole (length tasks)).
Proof.
  intros Hk. apply lookup_lt_Some in Hk.
  exists ∅. unfold Promise.start; join_simpl. rewrite size_empty. split_and!.
  - done.
  - by intros ? ?%not_elem_of_empty.
  - lia.
  - intros vs. case_decide; [lia|done].
  - by intros ?%not_elem_of_empty.
Qed.

Lemma join_failing_react (tasks : list (Settled A)) k e j i :
  tasks !! k = Some (Rejected e) ->
  join_failing tasks k j ->
  join_failing tasks k (Promise.react tasks j i).
Proof.
  intros Hk Hj. pose proof Hj as (F & Hsub & Hbound & Hcount & Hnot & Hsettled).
  pose proof (lookup_lt_Some _ _ _ Hk) as Hklt.
  unfold Promise.react.
  destruct (tasks !! i) as [[v|e']|] eqn:Hi; [| |done].
  - destruct (decide (i ∈ Promise.alreadyCalled j)) as [Hcalled|Hcalled]; [done|].
    assert (i ≠ k) as Hik by (intros ->; congruence).
    assert (i < length tasks) as Hilt by (by eapply lookup_lt_Some).
    assert (forall x, x ∈ {[i]} ∪ F -> x < length tasks /\ x ≠ k) as Hbound'.
    { intros x [->%elem_of_singleton|Hx]%elem_of_union; [done|by apply Hbound]. }
    pose proof (size_below_without _ _ k Hklt Hbound').
    assert (size ({[i]} ∪ F) = S (size F)) as Hsize.
    { rewrite size_union, size_singleton; [done|].
      intros x ->%elem_of_singleton Hx. by apply Hcalled, Hsub. }
    exists ({[i]} ∪ F). join_simpl. split_and!.
    + by apply union_mono_l.
    + done.
    + lia.
    + intros vs. case_decide; [lia|apply Hnot].
    + intros [Hki%elem_of_singleton|Hkc]%elem_of_union; [done|].
      case_decide; [lia|by apply Hsettled].
  - destruct (decide (i ∈ Promise.alreadyCalled j)) as [Hcalled|Hcalled]; [done|].
    exists F. join_simpl. split_and!.
    + by apply union_subseteq_r'.
    + done.
    + done.
    + intros vs. destruct (Promise.outcome j) as [r|] eqn:Hr; simpl; [|done].
      apply Hnot.
    + intros _. by destruct (Promise.outcome j).
Qed.

Lemma join_failing_foldl (tasks : list (Settled A)) k e order j :
  tasks !! k = Some (Rejected e) ->
  join_failing tasks k j ->
  join_failing tasks k (foldl (Promise.react tasks) j order).
Proof.
  intros Hk. revert j. induction order as [|i order IH]; intros j Hj; [done|].
  simpl. apply IH. by eapply join_failing_react.
Qed.

(** When one input promise rejects, the combined promise is never
    fulfilled, in whatever order and however far the others settle. *)
Lemma all_never_fulfilled (tasks : list (Settled A)) k e order vs :
  tasks !! k = Some (Rejected e) ->
  Promise.all hole tasks order ≠ Some (Fulfilled vs).
Proof.
  intros Hk.
  destruct (join_failing_foldl tasks k e order _ Hk
              (join_failing_start tasks k e Hk)) as (F & _ & _ & _ & Hnot & _).
  apply Hnot.
Qed.

(** When one input promise rejects and has settled, the combined promise is
    rejected. *)
Lemma all_rejected (tasks : list (Settled A)) k e order :
  tasks !! k = Some (Rejected e) -> k ∈ order ->
  exists e', Promise.all hole tasks order = Some (Rejected e').
Proof.
  intros Hk Hin.
  destruct (join_failing_foldl tasks k e order _ Hk
              (join_failing_start tasks k e Hk))
    as (F & _ & _ & _ & Hnot & Hsettled).
  destruct Hsettled as [[vs|e'] Hr].
  - apply foldl_react_called; [done|by eapply lookup_lt_Some].
  - by destruct (Hnot vs).
  - by exists e'.
Qed.

End JoinFacts.

(** ** Number formatting *)

Section FormatFacts.

(** The tenths are printed with exactly one digit after the point. *)
Lemma show_tenths_one_decimal (n : Z) :
  exists d : Ascii.ascii,
    show_tenths n = pretty (Z.to_N (n / 10)) ++ "." ++ String d EmptyString.
Proof.
  unfold show_tenths.
  pose proof (Z.mod_pos_bound n 10 eq_refl) as Hr.
  assert (exists k : nat, (n mod 10)%Z = Z.of_nat k /\ k < 10) as (k & -> & Hk).
  { exists (Z.to_nat (n mod 10)). lia. }
  do 10 (destruct k as [|k]; [by eexists|]). lia.
Qed.

(** [toFixed(1)] gives a decimal with one digit after the point, unless the
    number is not finite or is printed in exponent notation. *)
Lemma toFixed1_shape (big : spec_float -> string) (x : spec_float) :
  toFixed1 big x ∈ ["NaN"; "Infinity"; "-Infinity"; big x] \/
  exists (sign whole : string) (d : Ascii.ascii),
    toFixed1 big x = sign ++ whole ++ "." ++ String d EmptyString.
Proof.
  destruct x as [s|s| |s m e]; cbn [toFixed1].
  - right. by exists "", "0", (Ascii.ascii_of_nat 48).
  - left. destruct s.
    + do 2 apply list_elem_of_further. apply list_elem_of_here.
    + apply list_elem_of_further, list_elem_of_here.
  - left. apply list_elem_of_here.
  - destruct (10 ^ 22 <=? tenths m e)%Z.
    + left. do 3 apply list_elem_of_further. apply list_elem_of_here.
    + right. destruct (show_tenths_one_decimal (tenths m e)) as [d ->].
      by exists (if s then "-" else ""), (pretty (Z.to_N (tenths m e / 10))), d.
Qed.

End FormatFacts.

(** ** Profile merge *)

Section MergeFacts.
Import App.
Implicit Types (p q : gmap string JSValue) (k : string).

Lemma merge_union p (v : JSValue) : merge p v = ownProps v ∪ p.
Proof. unfold merge, spread. cbn [ownProps]. by rewrite (right_id_L ∅ (∪)). Qed.

Lemma merge_lookup p q k :
  merge p (JSObject q) !! k =
    match q !! k with Some v => Some v | None => p !! k end.
Proof.
  rewrite merge_union. cbn [ownProps].
  destruct (q !! k) as [v|] eqn:Hk.
  - by apply lookup_union_Some_l.
  - by apply lookup_union_r.
Qed.

(** C5, as stated, fails: a field that the second profile holds with the
    value [undefined] reads as undefined there, and the merge overwrites the
    name of the first profile with it. *)
Lemma merge_undefined_field_overwrites :
  let st := handleManualChange (JSObject {[ "name" := JSString "Rajesh" ]})
              (initialState Demo.catalog) in
  let q : gmap string JSValue := {[ "name" := JSUndefined ]} in
  get (profile st) "name" = JSString "Rajesh" /\
  get q "name" = JSUndefined /\
  get (profile (handleProfileExtracted (JSObject q) st)) "name" = JSUndefined /\
  get (profile (handleManualChange (JSObject q) st)) "name" = JSUndefined /\
  get (profile (handleProfileExtracted (JSObject q) st)) "name"
    ≠ get (profile st) "name".
Proof.
  cbn zeta. unfold handleProfileExtracted, handleManualChange, setProfile, get.
  cbn [profile]. rewrite !merge_lookup.
  rewrite !lookup_singleton_eq. done.
Qed.

(** C5, amended: the merge of both handlers is right-biased on the
    properties that the second profile has, whatever they hold, keeps the
    properties of the first profile that the second one does not have, and
    is idempotent. *)
Theorem merge_right_biased_idempotent p q k (st : AppState) :
  merge p (JSObject q) !! k =
    match q !! k with Some v => Some v | None => p !! k end /\
  get (merge p (JSObject q)) k =
    match q !! k with Some v => v | None => get p k end /\
  merge p (JSObject p) = p /\
  profile (handleProfileExtracted (JSObject q) st)
    = merge (profile st) (JSObject q) /\
  profile (handleManualChange (JSObject q) st)
    = merge (profile st) (JSObject q).
Proof.
  split_and!.
  - apply merge_lookup.
  - unfold get. rewrite merge_lookup. by destruct (q !! k).
  - rewrite merge_union. cbn [ownProps]. apply (idemp_L (∪)).
  - done.
  - done.
Qed.

End MergeFacts.

(** ** The inference service *)

Section ServiceFacts.
Import Gemini Spec.
Context (P : Platform) (SCHEME_GUIDELINES : gmap string string).
Implicit Types (profile : gmap string JSValue) (schemeId text : string).

Lemma conformsTo_empty schema : conformsTo schema (JSObject ∅).
Proof. unfold conformsTo. apply map_Forall_empty. Qed.

(** C6, as stated, fails: when the remote call fails, the extraction does
    not return, it throws the error of the call. *)
Lemma extractProfileFromText_throws :
  settle (extractProfileFromText Demo.platform "I am Rajesh from Punjab")
         (Rejects Demo.serviceDown)
  = Rejected Demo.serviceDown.
Proof. reflexivity. Qed.

(** C6, amended: the extraction throws exactly when the remote call fails,
    with the error of the call.  When the service responds it returns the
    parsed response as it is, so a subset of the six requested keys with
    values of the requested types whenever the service honours the schema
    of the request, and the empty object when the response does not parse. *)
Theorem extractProfileFromText_outcome text (response : Response) :
  settle (extractProfileFromText P text) response =
    match response with
    | Rejects e => Rejected e
    | Responds t => Fulfilled (default (JSObject ∅) (parse_text P t))
    end /\
  responseSchema (request (extractProfileFromText P text)) = profileSchema /\
  (forall t v, response = Responds t -> parse_text P t = Some v ->
     conformsTo profileSchema v ->
     exists r, settle (extractProfileFromText P text) response = Fulfilled r /\
               conformsTo profileSchema r) /\
  (forall t, response = Responds t -> parse_text P t = None ->
     settle (extractProfileFromText P text) response = Fulfilled (JSObject ∅) /\
     conformsTo profileSchema (JSObject ∅)).
Proof.
  unfold settle. cbn [resume extractProfileFromText]. split_and!.
  - destruct response as [e|t]; [done|]. by destruct (parse_text P t).
  - done.
  - intros t v -> Hv Hc. rewrite Hv. by exists v.
  - intros t -> Ht. rewrite Ht. split; [done|apply conformsTo_empty].
Qed.

(** The evaluator settles as the service answers. *)
Lemma checkEligibility_settle profile schemeId (response : Response) :
  settle (checkEligibility P SCHEME_GUIDELINES profile schemeId) response =
    match response with
    | Rejects e => Rejected e
    | Responds t =>
        match parse_text P t with
        | Some data => Fulfilled (eligibilityResult P data schemeId)
        | None => Rejected SyntaxError
        end
    end.
Proof.
  unfold settle. cbn [resume checkEligibility].
  destruct response as [e|t]; [done|]. by destruct (parse_text P t).
Qed.

Lemma checkEligibility_rejected_iff profile schemeId (response : Response) :
  (exists e, settle (checkEligibility P SCHEME_GUIDELINES profile schemeId)
               response = Rejected e)
  <-> failing P response.
Proof.
  rewrite checkEligibility_settle. unfold failing.
  destruct response as [e|t].
  - split; [done|by exists e].
  - destruct (parse_text P t) as [data|].
    + split; [by intros [e ?]|done].
    + split; [done|by exists SyntaxError].
Qed.

(** The evaluator raises an error if and only if the remote call errors or
    its output does not parse, the error of a failed call is the one the
    caller receives, and the lookup of the guidelines never throws: an id
    with no entry that names no inherited member gets the placeholder. *)
Lemma checkEligibility_errors profile schemeId (response : Response) :
  ((exists e, settle (checkEligibility P SCHEME_GUIDELINES profile schemeId)
                response = Rejected e)
   <-> failing P response) /\
  (forall e, response = Rejects e ->
     settle (checkEligibility P SCHEME_GUIDELINES profile schemeId) response
     = Rejected e) /\
  (SCHEME_GUIDELINES !! schemeId = None ->
   Object_prototype P !! schemeId = None ->
     guidelinesFor P SCHEME_GUIDELINES schemeId = JSString "No guidelines found." /\
     contents (request (checkEligibility P SCHEME_GUIDELINES profile schemeId))
     = eligibilityPrompt P profile (JSString "No guidelines found.") /\
     (answering P response ->
      exists r, settle (checkEligibility P SCHEME_GUIDELINES profile schemeId)
                  response = Fulfilled r)).
Proof.
  split_and!.
  - apply checkEligibility_rejected_iff.
  - intros e ->. by rewrite checkEligibility_settle.
  - intros Hnone Hproto. cbn [request contents checkEligibility].
    unfold guidelinesFor, guidelineEntry, get. rewrite Hnone, Hproto.
    split_and!; [done|done|].
    rewrite checkEligibility_settle. unfold answering.
    destruct response as [e|t]; [done|]. intros [data ->]. by eexists.
Qed.

Lemma eligibilityResult_lookup (data : JSValue) schemeId k :
  eligibilityResult P data schemeId !! k =
    if decide (k = "schemeName") then Some (JSString (toUpperCase P schemeId))
    else if decide (k = "schemeId") then Some (JSString schemeId)
    else ownProps data !! k.
Proof.
  unfold eligibilityResult, spread. rewrite (right_id_L ∅ (∪)).
  repeat case_decide; subst.
  - by rewrite lookup_insert_eq.
  - by rewrite lookup_insert_ne, lookup_insert_eq.
  - by rewrite !lookup_insert_ne.
Qed.

(** C10: on a successful call the result carries the scheme id it was
    called with and, as its name, that id in upper case, whatever the
    response holds under these two names; the display name of the catalog
    entry plays no part.  The other properties are those of the response. *)
Theorem checkEligibility_names profile (scheme : App.Scheme)
    (body : option string) (data : JSValue) :
  parse_text P body = Some data ->
  exists r,
    settle (checkEligibility P SCHEME_GUIDELINES profile (App.id scheme))
           (Responds body) = Fulfilled r /\
    get r "schemeName" = JSString (toUpperCase P (App.id scheme)) /\
    get r "schemeId" = JSString (App.id scheme) /\
    forall k, k ≠ "schemeName" -> k ≠ "schemeId" ->
      get r k = get (ownProps data) k.
Proof.
  intros Hdata. exists (eligibilityResult P data (App.id scheme)).
  rewrite checkEligibility_settle, Hdata. unfold get. split_and!.
  - done.
  - by rewrite eligibilityResult_lookup.
  - by rewrite eligibilityResult_lookup.
  - intros k H1 H2. rewrite eligibilityResult_lookup.
    by repeat case_decide.
Qed.

End ServiceFacts.

(** ** The analysis run *)

Section AnalysisFacts.
Import Gemini App Spec.
Context (P : Platform) (SCHEME_GUIDELINES : gmap string string).
Context (INITIAL_SCHEMES : list Scheme).
Implicit Types (env : Env) (st : AppState) (i : nat).

Local Abbreviation run := (runAnalysis P SCHEME_GUIDELINES INITIAL_SCHEMES).
Local Abbreviation checks := (eligibilityChecks P SCHEME_GUIDELINES INITIAL_SCHEMES).
Local Abbreviation evaluate := (checkEligibility P SCHEME_GUIDELINES).

Lemma truthy_filled (v : JSValue) : filled v -> truthy v = true.
Proof.
  destruct v as [| | | |s| | |]; try done. cbn. intros Hs.
  by apply negb_true_iff, String.eqb_neq.
Qed.

Lemma truthy_blank (v : JSValue) : blank v -> truthy v = false.
Proof. by intros [-> | ->]. Qed.

(** The guard at the head of [runAnalysis]. *)
Lemma runAnalysis_guard env st :
  truthy (get (profile st) "name") = false
  \/ truthy (get (profile st) "state") = false ->
  run env st = (st, [Alert "Please fill in at least Name and State."]).
Proof.
  intros H. unfold runAnalysis.
  destruct H as [-> | ->]; [done|]. by rewrite orb_true_r.
Qed.

(** Behind the guard the run is decided by the join of the calls. *)
Lemma runAnalysis_unfold env st :
  truthy (get (profile st) "name") = true ->
  truthy (get (profile st) "state") = true ->
  run env st =
    let st1 := setIsLoading true st in
    let issued := map (fun c => GenerateContent (request c)) (checks (profile st)) in
    match Promise.all ∅ (settlements env (checks (profile st))) (completion env) with
    | None => (st1, issued)
    | Some (Fulfilled res) =>
        (setIsLoading false
           (setActiveTab TabResults
              (setMetrics (updateMetrics P env res) (setResults res st1))),
         issued)
    | Some (Rejected error) =>
        (setIsLoading false st1,
         (issued ++ [ConsoleError "Analysis failed";
                     Alert "Something went wrong during analysis. Check your API key."])%list)
    end.
Proof. intros Hn Hs. unfold runAnalysis. rewrite Hn, Hs. done. Qed.




Lemma settlements_lookup env (prof : gmap string JSValue) i :
  settlements env (checks prof) !! i
  = (fun scheme => settle (evaluate prof (id scheme)) (answers env i))
      <$> INITIAL_SCHEMES !! i.
Proof.
  unfold settlements, eligibilityChecks.
  rewrite list_lookup_imap. change (map ?f ?l) with (f <$> l).
  rewrite list_lookup_fmap. by destruct (INITIAL_SCHEMES !! i).
Qed.


Lemma settlements_failing env (prof : gmap string JSValue) i :
  i < length INITIAL_SCHEMES -> failing P (answers env i) ->
  exists e, settlements env (checks prof) !! i = Some (Rejected e).
Proof.
  intros Hi Hfail. rewrite settlements_lookup.
  destruct (lookup_lt_is_Some_2 _ _ Hi) as [scheme ->]. cbn.
  destruct (proj2 (checkEligibility_rejected_iff P SCHEME_GUIDELINES prof
                     (id scheme) (answers env i)) Hfail) as [e ->].
  by exists e.
Qed.

Lemma verdicts_length env : length (verdicts P INITIAL_SCHEMES env) = length INITIAL_SCHEMES.
Proof. unfold verdicts. apply length_imap. Qed.


(** A failing call keeps the stored results and the metrics as they were,
    at every stage of the run. *)
Lemma runAnalysis_failing_keeps env st i :
  truthy (get (profile st) "name") = true ->
  truthy (get (profile st) "state") = true ->
  i < length INITIAL_SCHEMES -> failing P (answers env i) ->
  results (run env st).1 = results st /\
  metrics (run env st).1 = metrics st /\
  profile (run env st).1 = profile st /\
  activeTab (run env st).1 = activeTab st.
Proof.
  intros Hn Hs Hi Hfail. rewrite (runAnalysis_unfold _ _ Hn Hs). cbn zeta.
  destruct (settlements_failing env (profile st) i Hi Hfail) as [e He].
  destruct (Promise.all _ _ _) as [[res|e']|] eqn:Hall; [|done|done].
  by destruct (all_never_fulfilled ∅ _ i e (completion env) res He).
Qed.

(** C1: when one of the evaluator calls of a run on a valid profile fails,
    the run fails, with the failure notice and no result set, and the
    stored results and the metrics keep the values they had before. *)
Theorem runAnalysis_all_or_nothing env st i :
  filled (get (profile st) "name") ->
  filled (get (profile st) "state") ->
  i < length INITIAL_SCHEMES ->
  failing P (answers env i) ->
  i ∈ completion env ->
  results (run env st).1 = results st /\
  metrics (run env st).1 = metrics st /\
  (run env st).1 = setIsLoading false st /\
  last (run env st).2
  = Some (Alert "Something went wrong during analysis. Check your API key.").
Proof.
  intros Hn%truthy_filled Hs%truthy_filled Hi Hfail Hdone.
  destruct (runAnalysis_failing_keeps env st i Hn Hs Hi Hfail) as (Hr & Hm & _).
  split; [done|]. split; [done|].
  rewrite (runAnalysis_unfold _ _ Hn Hs). cbn zeta.
  destruct (settlements_failing env (profile st) i Hi Hfail) as [e He].
  destruct (all_rejected ∅ _ i e (completion env) He Hdone) as [e' ->].
  cbn [fst snd]. split; [done|].
  by rewrite last_app.
Qed.


(** C4: a run on a profile whose name or state is missing or empty stops at
    the validation notice: no call to the inference service is issued and
    the state, with its profile, results and metrics, is the one it had. *)
Theorem runAnalysis_validation env st :
  blank (get (profile st) "name") \/ blank (get (profile st) "state") ->
  run env st = (st, [Alert "Please fill in at least Name and State."]) /\
  remoteCalls (run env st).2 = [] /\
  profile (run env st).1 = profile st /\
  results (run env st).1 = results st /\
  metrics (run env st).1 = metrics st.
Proof.
  intros Hblank.
  assert (run env st = (st, [Alert "Please fill in at least Name and State."]))
    as ->; [|done].
  apply runAnalysis_guard.
  destruct Hblank as [H|H]; [left|right]; by apply truthy_blank.
Qed.

End AnalysisFacts.

(** ** Speech capture *)

Section CaptureFacts.
Import Gemini Voice Spec.
Context (P : Platform).
Implicit Types (st : VoiceState) (perm : Permission).

(** No method other than [start()] and no event makes a session active. *)
Lemma session_not_activated (s : Session) (ev : RecEvent) :
  rec_stop s ≠ Active /\ rec_abort s ≠ Active /\ after ev ≠ Active.
Proof. by destruct s, ev. Qed.

Lemma step_active_shown a st st' :
  active_shown st -> step P a st = Some st' -> active_shown st'.
Proof.
  unfold active_shown. destruct st as [lis said proc err [s|]];
    cbn [recognition isListening]; intros Hinv Hstep;
    destruct a as [|perm| |ev|t response|]; cbn in Hstep;
    try (injection Hstep as <-); try done.
  - destruct perm as [|e]; [|done]. by destruct s.
  - unfold stopListening. cbn. intros [=Hact].
    by destruct (session_not_activated s OnEnd) as (? & _).
  - unfold deliver in Hstep. cbn in Hstep.
    destruct (fires s ev); [|done]. cbn in Hstep. injection Hstep as <-.
    destruct (session_not_activated s ev) as (_ & _ & Hafter).
    by destruct ev; cbn; intros [=Hact].
  - unfold onresult_resume. destruct (resume _ _) as [[v|e] fx]; done.
  - unfold cleanup. cbn. intros [=Hact].
    by destruct (session_not_activated s OnEnd) as (_ & ? & _).
  - by destruct perm.
  - unfold onresult_resume. destruct (resume _ _) as [[v|e] fx]; done.
Qed.

(** In every state the component can reach, a running session is shown as
    listening. *)
Lemma reachable_active_shown st : reachable P st -> active_shown st.
Proof.
  induction 1 as [supported|a st st' _ IH Hstep].
  - unfold active_shown. by destruct supported.
  - by eapply step_active_shown.
Qed.

(** C8, as stated, fails: after [stopListening] in Listening the session
    has been told to stop, not to abort, and the result it then delivers is
    taken: the transcript is stored and sent to the extraction. *)
Lemma stopListening_result_still_delivered :
  let st := (startListening Granted (initialState true)).1 in
  let said := "I am a farmer from Punjab with 4 acres of land" in
  listening st /\
  (stopListening st).2 = [RecognitionStop] /\
  exists st',
    deliver Demo.platform (OnResult said) (stopListening st).1
    = Some (st', [GenerateContent
                    (request (extractProfileFromText Demo.platform said))]) /\
    transcript st' = said.
Proof.
  cbn zeta. split; [done|]. split; [done|]. eexists. split; reflexivity.
Qed.

(** C8, amended: [stopListening] in Listening calls [stop()] on the
    session, not [abort()], and the machine shows Idle; the result that the
    stopping session may still deliver is taken, its transcript stored and
    sent to the extraction.  Only an aborted session delivers nothing. *)
Theorem stopListening_stops st :
  listening st ->
  (stopListening st).2 = [RecognitionStop] /\
  phase (stopListening st).1 = Idle /\
  recognition (stopListening st).1 = Some Stopping /\
  transcript (stopListening st).1 = transcript st /\
  (forall said, exists st',
     deliver P (OnResult said) (stopListening st).1
     = Some (st', [GenerateContent (request (extractProfileFromText P said))]) /\
     transcript st' = said /\ phase st' = Processing) /\
  (forall said, deliver P (OnResult said) (cleanup st).1 = None).
Proof.
  intros (Hphase & Herr & Hrec). unfold phase in Hphase.
  destruct (isProcessing st) eqn:Hproc; [done|].
  unfold stopListening, cleanup. rewrite Hrec. cbn [fst snd rec_stop rec_abort].
  split_and!; try done.
  - unfold phase. cbn. by rewrite Hproc, Herr.
  - intros said. eexists. unfold deliver. cbn. split_and!; reflexivity.
Qed.

(** C9: [startListening] in Listening is rejected: the session that runs
    stays the only one, in the state it was in, and an error is shown; and
    [stopListening] in a reachable Idle state leaves the state as it is. *)
Theorem capture_not_reentrant perm st st0 :
  listening st ->
  reachable P st0 -> phase st0 = Idle ->
  (recognition (startListening perm st).1 = Some Active /\
   isListening (startListening perm st).1 = true /\
   is_Some (error (startListening perm st).1) /\
   (perm = Granted ->
    rec_start Active = inr InvalidStateError /\
    error (startListening perm st).1
    = Some "Could not start microphone. Ensure no other app is using it.")) /\
  (stopListening st0).1 = st0.
Proof.
  intros (Hphase & Herr & Hrec) Hreach Hidle. split.
  - unfold phase in Hphase.
    destruct (isProcessing st) eqn:Hproc; [done|].
    destruct (isListening st) eqn:Hlis; [|by destruct (error st)].
    unfold startListening, startListening_begin.
    cbn [recognition setTranscript setError]. rewrite Hrec.
    destruct perm as [|err]; cbn; rewrite ?Hrec, ?Hlis; cbn.
    + split_and!; by eauto.
    + split_and!; by eauto.
  - pose proof (reachable_active_shown st0 Hreach) as Hinv.
    unfold phase in Hidle. destruct (isProcessing st0) eqn:Hproc; [done|].
    destruct (isListening st0) eqn:Hlis; [done|].
    unfold stopListening. destruct (recognition st0) as [s|] eqn:Hs; [|done].
    assert (rec_stop s = s) as ->.
    { destruct s; try done. specialize (Hinv Hs). congruence. }
    destruct st0; cbn in *. by subst.
Qed.

End CaptureFacts.

(** ** The properties at work *)

Section Examples.
Import Gemini App Voice Spec.

Local Abbreviation run := (runAnalysis Demo.platform Demo.guidelines Demo.catalog).

Example duration_goodRun : duration Demo.platform Demo.goodRun = "1.2".
Proof. vm_compute. reflexivity. Qed.

Example toFixed1_ties :
  map (fun ms => toFixed1 (fun x => Demo.show (JSNumber x))
                        (num_div (num ms) (num 1000)))
      [0; 49; 50; 250; 350; 1450; 99950; -40]%Z
  = ["0.0"; "0.0"; "0.1"; "0.3"; "0.3"; "1.4"; "100.0"; "-0.0"].
Proof. vm_compute. reflexivity. Qed.

Example goodRun_effects :
  remoteCalls (run Demo.goodRun Demo.state).2
  = [request (checkEligibility Demo.platform Demo.guidelines Demo.rajesh "pm-kisan");
     request (checkEligibility Demo.platform Demo.guidelines Demo.rajesh "pmfby")].
Proof. vm_compute. reflexivity. Qed.

Example goodRun_metrics :
  metrics (run Demo.goodRun Demo.state).1
  = {| schemesAnalyzed := 2; checksPerformed := 1;
       avgResponseTime := "1.2s"; eligibleCount := 1 |}.
Proof. vm_compute. reflexivity. Qed.

(** The name stored for a scheme is its id in upper case, not the name the
    catalog displays. *)
Example goodRun_names :
  map (fun r => get r "schemeName") (results (run Demo.goodRun Demo.state).1)
  = [JSString "PM-KISAN"; JSString "PMFBY"] /\
  map name Demo.catalog
  = ["PM Kisan Samman Nidhi"; "Pradhan Mantri Fasal Bima Yojana"].
Proof. split; vm_compute; reflexivity. Qed.

(** A failed extraction is caught by the handler that called it, which
    shows an error and leaves the processing state. *)
Example onresult_catches_extraction_failure :
  (fun heard =>
     onresult_resume Demo.platform "I am Rajesh" (Rejects Demo.serviceDown)
       heard.1)
    <$> deliver Demo.platform (OnResult "I am Rajesh") Demo.capturing
  = Some ({| isListening := false; transcript := "I am Rajesh";
             isProcessing := false;
             error := Some "Failed to process your request. Please try speaking again.";
             recognition := Some Ending |},
          [ConsoleError "Profile extraction failed"]).
Proof. reflexivity. Qed.

Lemma runAnalysis_all_or_nothing_witness :
  filled (get (profile Demo.state) "name") /\
  failing Demo.platform (answers Demo.failingRun 1) /\
  results (run Demo.failingRun Demo.state).1 = results Demo.state /\
  metrics (run Demo.failingRun Demo.state).1 = metrics Demo.state /\
  (run Demo.failingRun Demo.state).1 = setIsLoading false Demo.state /\
  last (run Demo.failingRun Demo.state).2
  = Some (Alert "Something went wrong during analysis. Check your API key.").
Proof.
  split; [vm_compute; discriminate|]. split; [exact I|].
  apply (runAnalysis_all_or_nothing Demo.platform Demo.guidelines Demo.catalog
           Demo.failingRun Demo.state 1).
  - vm_compute. discriminate.
  - vm_compute. discriminate.
  - cbn. lia.
  - exact I.
  - apply list_elem_of_here.
Defined.


Lemma runAnalysis_validation_witness :
  blank (get (profile Demo.nameless) "name") /\
  run Demo.goodRun Demo.nameless
  = (Demo.nameless, [Alert "Please fill in at least Name and State."]) /\
  remoteCalls (run Demo.goodRun Demo.nameless).2 = [].
Proof.
  assert (blank (get (profile Demo.nameless) "name")) as Hblank.
  { left. vm_compute. reflexivity. }
  split; [exact Hblank|].
  destruct (runAnalysis_validation Demo.platform Demo.guidelines Demo.catalog
              Demo.goodRun Demo.nameless (or_introl Hblank))
    as (Hrun & Hcalls & _).
  split; [exact Hrun|exact Hcalls].
Defined.

Lemma extractProfileFromText_outcome_witness :
  parse_text Demo.platform (Some "not json") = None /\
  settle (extractProfileFromText Demo.platform "I am Rajesh")
         (Responds (Some "not json"))
  = Fulfilled (JSObject ∅).
Proof.
  split; [reflexivity|].
  destruct (extractProfileFromText_outcome Demo.platform "I am Rajesh"
              (Responds (Some "not json"))) as (_ & _ & _ & Hsoft).
  destruct (Hsoft (Some "not json") eq_refl eq_refl) as [Hfulfilled _].
  exact Hfulfilled.
Defined.

Example checkEligibility_unknown_id :
  Demo.guidelines !! "kcc" = None /\
  contents (request (checkEligibility Demo.platform Demo.guidelines
                       Demo.rajesh "kcc"))
  = eligibilityPrompt Demo.platform Demo.rajesh (JSString "No guidelines found.") /\
  settle (checkEligibility Demo.platform Demo.guidelines Demo.rajesh "kcc")
         (Rejects Demo.serviceDown)
  = Rejected Demo.serviceDown.
Proof.
  assert (Demo.guidelines !! "kcc" = None) as Hunknown by reflexivity.
  split; [exact Hunknown|].
  destruct (checkEligibility_errors Demo.platform Demo.guidelines Demo.rajesh
              "kcc" (Rejects Demo.serviceDown)) as (_ & Hsame & Hplace).
  split; [exact (proj1 (proj2 (Hplace Hunknown eq_refl)))|exact (Hsame _ eq_refl)].
Qed.

Lemma checkEligibility_names_witness :
  let scheme := {| id := "pm-kisan"; name := "PM Kisan Samman Nidhi";
                   category := "Income Support"; benefit := "Rs 6000 per year" |} in
  let body := Some ("{" ++ quote ++ "schemeName" ++ quote ++ ":null}") in
  parse_text Demo.platform body
  = Some (JSObject {[ "schemeName" := JSNull ]}) /\
  exists r,
    settle (checkEligibility Demo.platform Demo.guidelines Demo.rajesh (id scheme))
           (Responds body) = Fulfilled r /\
    get r "schemeName" = JSString "PM-KISAN".
Proof.
  cbn zeta. split; [reflexivity|].
  destruct (checkEligibility_names Demo.platform Demo.guidelines Demo.rajesh
              {| id := "pm-kisan"; name := "PM Kisan Samman Nidhi";
                 category := "Income Support"; benefit := "Rs 6000 per year" |}
              (Some ("{" ++ quote ++ "schemeName" ++ quote ++ ":null}"))
              (JSObject {[ "schemeName" := JSNull ]}) eq_refl)
    as (r & Hr & Hname & _).
  exists r. split; [exact Hr|exact Hname].
Defined.

Lemma stopListening_stops_witness :
  listening Demo.capturing /\
  (stopListening Demo.capturing).2 = [RecognitionStop] /\
  recognition (stopListening Demo.capturing).1 = Some Stopping.
Proof.
  assert (listening Demo.capturing) as Hlistening by (by split_and!).
  split; [exact Hlistening|].
  destruct (stopListening_stops Demo.platform Demo.capturing Hlistening)
    as (Hfx & _ & Hsession & _).
  split; [exact Hfx|exact Hsession].
Defined.

Lemma capture_not_reentrant_witness :
  listening Demo.capturing /\
  reachable Demo.platform (initialState true) /\
  recognition (startListening Granted Demo.capturing).1 = Some Active /\
  (stopListening (initialState true)).1 = initialState true.
Proof.
  assert (listening Demo.capturing) as Hlistening by (by split_and!).
  assert (reachable Demo.platform (initialState true)) as Hreach
    by apply reachable_init.
  split; [exact Hlistening|]. split; [exact Hreach|].
  destruct (capture_not_reentrant Demo.platform Granted Demo.capturing
              (initialState true) Hlistening Hreach eq_refl)
    as ((Hsession & _) & Hstop).
  split; [exact Hsession|exact Hstop].
Defined.

End Examples.

(** * Further properties of the code *)

(** ** What a fulfilled join tells *)

Section JoinConverse.
Context {A : Type} (hole : A).

Lemma react_called_inv (tasks : list (Settled A)) (j : Promise.Join (A:=A))
    (k i : nat) :
  i ∈ Promise.alreadyCalled (Promise.react tasks j k) ->
  i ∈ Promise.alreadyCalled j \/ i = k.
Proof.
  unfold Promise.react.
  destruct (tasks !! k) as [[v|e]|]; [| |by left];
    (destruct (decide (k ∈ Promise.alreadyCalled j)); [by left|]);
    join_simpl; intros [->%elem_of_singleton|Hi]%elem_of_union; auto.
Qed.

Lemma foldl_react_called_inv (tasks : list (Settled A)) (order : list nat)
    (j : Promise.Join (A:=A)) (i : nat) :
  i ∈ Promise.alreadyCalled (foldl (Promise.react tasks) j order) ->
  i ∈ Promise.alreadyCalled j \/ i ∈ order.
Proof.
  revert j. induction order as [|k order IH]; intros j Hi; [by left|].
  cbn in Hi. destruct (IH _ Hi) as [Hj|Hin].
  - destruct (react_called_inv _ _ _ _ Hj) as [?| ->]; [by left|right].
    apply list_elem_of_here.
  - right. by apply list_elem_of_further.
Qed.

(** The combined promise is fulfilled only when every input promise has
    fulfilled and settled, and then with their values, in their order. *)
Lemma all_fulfilled_inv (tasks : list (Settled A)) (order : list nat)
    (vs : list A) :
  Promise.all hole tasks order = Some (Fulfilled vs) ->
  tasks = Fulfilled <$> vs /\ forall i, i < length tasks -> i ∈ order.
Proof.
  intros Hall.
  set (ws := (fun s => match s with Fulfilled v => v | Rejected _ => hole end)
               <$> tasks).
  assert (tasks = Fulfilled <$> ws) as Htasks.
  { apply list_eq. intros i. unfold ws. rewrite !list_lookup_fmap.
    destruct (tasks !! i) as [[v|e]|] eqn:Hi; [done| |done].
    by destruct (all_never_fulfilled hole tasks i e order vs Hi). }
  assert (length ws = length tasks) as Hlen by (unfold ws; apply length_fmap).
  unfold Promise.all in Hall. rewrite Htasks, length_fmap in Hall.
  pose proof (join_filling_foldl ws order _ (join_filling_start hole ws))
    as (Hvlen & Hvals & Hcount & Hout).
  set (j := foldl _ _ _) in *. rewrite Hout in Hall.
  destruct (decide (Promise.remaining j = 0)) as [Hzero|]; [|done].
  injection Hall as Hvs.
  assert (forall i, i < length ws -> i ∈ Promise.alreadyCalled j) as Hcalled.
  { assert (Promise.alreadyCalled j = set_seq 0 (length ws)) as ->.
    { apply set_subseteq_size_eq.
      - intros i Hi. apply elem_of_set_seq. destruct (Hvals i Hi). lia.
      - rewrite size_set_seq. lia. }
    intros i Hi. apply elem_of_set_seq. lia. }
  assert (vs = ws) as ->.
  { rewrite <- Hvs. apply list_eq. intros i.
    destruct (decide (i < length ws)) as [Hi|Hi].
    - by apply Hvals, Hcalled.
    - rewrite !(proj2 (lookup_ge_None _ _)); [done|lia|lia]. }
  split; [done|]. intros i Hi.
  destruct (foldl_react_called_inv _ _ _ i (Hcalled i ltac:(lia))) as [Hi0|Hin];
    [|done].
  by apply not_elem_of_empty in Hi0.
Qed.

End JoinConverse.

(** ** Runs of the analysis, one at a time and interleaved *)

Section RunFacts.
Import Gemini App Spec.
Context (P : Platform) (SCHEME_GUIDELINES : gmap string string).
Context (INITIAL_SCHEMES : list Scheme).
Implicit Types (env : Env) (st : AppState) (prof : gmap string JSValue).

Local Abbreviation run := (runAnalysis P SCHEME_GUIDELINES INITIAL_SCHEMES).
Local Abbreviation checks := (eligibilityChecks P SCHEME_GUIDELINES INITIAL_SCHEMES).
Local Abbreviation joinOf := (Shell.joinOf P SCHEME_GUIDELINES INITIAL_SCHEMES).
Local Abbreviation begin := (Shell.runAnalysis_begin P SCHEME_GUIDELINES INITIAL_SCHEMES).
Local Abbreviation resume_run := (Shell.runAnalysis_resume P).

(** The two halves of [runAnalysis] make up the whole. *)
Lemma runAnalysis_split env st :
  run env st =
    match begin st with
    | (st1, fx, None) => (st1, fx)
    | (st1, fx, Some issued) =>
        match Promise.all ∅ (settlements env issued) (completion env) with
        | None => (st1, fx)
        | Some joined =>
            ((resume_run env joined st1).1,
             (fx ++ (resume_run env joined st1).2)%list)
        end
    end.
Proof.
  unfold runAnalysis, Shell.runAnalysis_begin.
  destruct (negb _ || negb _); [done|]. cbn zeta.
  destruct (Promise.all _ _ _) as [[res|e]|]; cbn; by rewrite ?app_nil_r.
Qed.

Lemma settlements_length env prof :
  length (settlements env (checks prof)) = length INITIAL_SCHEMES.
Proof.
  unfold settlements, eligibilityChecks. by rewrite length_imap, length_map.
Qed.

(** A join that is fulfilled holds the verdicts, and every call has
    answered and settled. *)
Lemma joined_verdicts env prof (res : list (gmap string JSValue)) :
  joinOf env prof = Some (Fulfilled res) ->
  res = verdicts P INITIAL_SCHEMES env /\
  forall i, i < length INITIAL_SCHEMES ->
    answering P (answers env i) /\ i ∈ completion env.
Proof.
  intros Hjoin. apply all_fulfilled_inv in Hjoin as [Htasks Hsettled].
  rewrite settlements_length in Hsettled.
  assert (forall i scheme, INITIAL_SCHEMES !! i = Some scheme ->
            answering P (answers env i) /\
            res !! i = Some (verdictOf P env i scheme)) as Heach.
  { intros i scheme Hi.
    pose proof (settlements_lookup P SCHEME_GUIDELINES INITIAL_SCHEMES env prof i)
      as Hlook.
    rewrite Htasks, list_lookup_fmap, Hi in Hlook.
    cbn [fmap option_fmap option_map] in Hlook.
    rewrite checkEligibility_settle in Hlook. unfold answering, verdictOf.
    destruct (answers env i) as [e|t]; [by destruct (res !! i)|].
    destruct (parse_text P t) as [data|]; [|by destruct (res !! i)].
    split; [by eexists|]. destruct (res !! i); cbn in *; congruence. }
  split.
  - apply list_eq. intros i. unfold verdicts. rewrite list_lookup_imap.
    destruct (INITIAL_SCHEMES !! i) as [scheme|] eqn:Hi; cbn.
    + by apply Heach.
    + apply lookup_ge_None. apply lookup_ge_None in Hi.
      rewrite <- (length_fmap Fulfilled res), <- Htasks, settlements_length.
      done.
  - intros i Hi. destruct (lookup_lt_is_Some_2 _ _ Hi) as [scheme Hs].
    split; [by apply (Heach i scheme)|by apply Hsettled].
Qed.

(** X1: a run ends in one of two ways.  Either nothing is stored: the
    profile, the results, the metrics and the tab are those from before.
    Or every call has answered and settled and the verdicts are stored as
    a whole, the tab switches to the results, loading has ended and one
    more check is counted.  No run stores a part of the verdicts. *)
Theorem run_outcomes env st :
  profile (run env st).1 = profile st /\
  ((results (run env st).1 = results st /\
    metrics (run env st).1 = metrics st /\
    activeTab (run env st).1 = activeTab st) \/
   (results (run env st).1 = verdicts P INITIAL_SCHEMES env /\
    (forall i, i < length INITIAL_SCHEMES ->
       answering P (answers env i) /\ i ∈ completion env) /\
    activeTab (run env st).1 = TabResults /\
    isLoading (run env st).1 = false /\
    checksPerformed (metrics (run env st).1)
    = checksPerformed (metrics st) + 1)).
Proof.
  unfold runAnalysis. destruct (negb _ || negb _); [by auto|]. cbn zeta.
  destruct (Promise.all _ _ _) as [[res|e]|] eqn:Hjoin; cbn; [|by auto|by auto].
  split; [done|right].
  destruct (joined_verdicts env (profile st) res Hjoin) as [-> Hall]. done.
Qed.

Lemma run_profile env st : profile (run env st).1 = profile st.
Proof.
  unfold runAnalysis. destruct (negb _ || negb _); [done|]. cbn zeta.
  by destruct (Promise.all _ _ _) as [[res|e]|].
Qed.

Lemma run_counts env st :
  checksPerformed (metrics (run env st).1)
  = checksPerformed (metrics st)
    + (if Shell.succeeds P SCHEME_GUIDELINES INITIAL_SCHEMES (profile st) env
       then 1 else 0) /\
  schemesAnalyzed (metrics (run env st).1) = schemesAnalyzed (metrics st).
Proof.
  unfold runAnalysis, Shell.succeeds, Shell.joinOf.
  destruct (truthy (get (profile st) "name")); cbn; [|split; [lia|done]].
  destruct (truthy (get (profile st) "state")); cbn; [|split; [lia|done]].
  destruct (Promise.all _ _ _) as [[res|e]|]; cbn; split; (lia || done).
Qed.

(** X2: over any sequence of runs, [checksPerformed] grows by the number
    of runs that stored a result set, no more and no less, while the
    profile and [schemesAnalyzed] stay as they were. *)
Theorem runs_count (envs : list Env) st :
  checksPerformed (metrics (Shell.runs P SCHEME_GUIDELINES INITIAL_SCHEMES envs st))
  = checksPerformed (metrics st)
    + length (List.filter
                (Shell.succeeds P SCHEME_GUIDELINES INITIAL_SCHEMES (profile st))
                envs) /\
  profile (Shell.runs P SCHEME_GUIDELINES INITIAL_SCHEMES envs st) = profile st /\
  schemesAnalyzed (metrics (Shell.runs P SCHEME_GUIDELINES INITIAL_SCHEMES envs st))
  = schemesAnalyzed (metrics st).
Proof.
  unfold Shell.runs. revert st.
  induction envs as [|env envs IH]; intros st; [cbn; split_and!; (lia || done)|].
  cbn [foldl List.filter].
  destruct (IH (run env st).1) as (Hcount & Hprof & Hschemes).
  destruct (run_counts env st) as [Hone Hsame].
  rewrite Hcount, Hprof, Hschemes, Hone, Hsame, !run_profile.
  split_and!; [|done|done].
  destruct (Shell.succeeds _ _ _ _ env); cbn [length]; lia.
Qed.

End RunFacts.

(** ** The application as a whole *)

Section ShellFacts.
Import Gemini App Spec.
Context (P : Platform) (SCHEME_GUIDELINES : gmap string string).
Context (INITIAL_SCHEMES : list Scheme).
Implicit Types (st : AppState) (sh : Shell.ShellState).

Local Abbreviation consistent := (Shell.consistent INITIAL_SCHEMES).
Local Abbreviation reachable :=
  (Shell.reachable P SCHEME_GUIDELINES INITIAL_SCHEMES).

(** A merge never takes a property away. *)
Lemma merge_keeps (p : gmap string JSValue) (v : JSValue) (k : string) :
  is_Some (p !! k) -> is_Some (merge p v !! k).
Proof. intros Hk. rewrite merge_union. apply lookup_union_is_Some. by right. Qed.

(** A handler that leaves the results and the metrics alone and takes no
    property off the profile keeps the state consistent. *)
Lemma consistent_frame st st' :
  results st' = results st -> metrics st' = metrics st ->
  (forall k, is_Some (profile st !! k) -> is_Some (profile st' !! k)) ->
  consistent st -> consistent st'.
Proof.
  intros Hr Hm Hp (H1 & H2 & H3 & H4 & H5 & H6).
  unfold Shell.consistent. rewrite Hr, Hm. split_and!; auto.
Qed.

Lemma consistent_resume (env : Env) (prof : gmap string JSValue)
    (joined : Settled (list (gmap string JSValue))) st :
  Shell.joinOf P SCHEME_GUIDELINES INITIAL_SCHEMES env prof = Some joined ->
  consistent st ->
  consistent (Shell.runAnalysis_resume P env joined st).1.
Proof.
  intros Hjoin Hst. destruct joined as [res|e]; cbn.
  - destruct (joined_verdicts P SCHEME_GUIDELINES INITIAL_SCHEMES env prof res
                Hjoin) as [Hres _].
    assert (length res = length INITIAL_SCHEMES) as Hlen
      by (rewrite Hres; apply verdicts_length).
    destruct Hst as (H1 & _ & _ & _ & H5 & H6).
    unfold Shell.consistent. cbn. split_and!; auto.
    rewrite <- Hlen. apply List.filter_length_le.
  - by apply (consistent_frame st).
Qed.

Lemma step_consistent (a : Shell.Action) sh sh' :
  Shell.step P SCHEME_GUIDELINES INITIAL_SCHEMES a sh = Some sh' ->
  consistent (Shell.app sh) -> consistent (Shell.app sh').
Proof.
  intros Hstep Hsh.
  destruct a as [u| |v|v|tab| |env prof]; cbn in Hstep.
  - by injection Hstep as <-.
  - injection Hstep as <-. destruct Hsh as (H1 & _ & H3 & _).
    unfold Shell.consistent. cbn. split_and!; auto; done.
  - injection Hstep as <-. apply (consistent_frame (Shell.app sh)); auto.
    intros k. apply merge_keeps.
  - injection Hstep as <-. apply (consistent_frame (Shell.app sh)); auto.
    intros k. apply merge_keeps.
  - injection Hstep as <-. by apply (consistent_frame (Shell.app sh)).
  - injection Hstep as <-. apply (consistent_frame (Shell.app sh)); auto;
      cbn; unfold Shell.runAnalysis_begin; by destruct (negb _ || negb _).
  - destruct (Shell.joinOf _ _ _ env prof) as [joined|] eqn:Hjoin; [|done].
    injection Hstep as <-. cbn. by eapply consistent_resume.
Qed.

(** X3: in every state that the application can reach, with runs settling
    at any moment and in any login state, [schemesAnalyzed] is the size of
    the catalog, the stored results are none or one per catalog entry,
    [eligibleCount] is at most the size of the catalog and, while results
    are stored, it is the number of them that are eligible, and the profile
    still has its [category] and [landHolding]. *)
Theorem reachable_consistent sh :
  reachable sh -> consistent (Shell.app sh).
Proof.
  induction 1 as [|a sh sh' _ IH Hstep].
  - unfold Shell.consistent. cbn. split_and!; auto; try done; try lia.
  - by eapply step_consistent.
Qed.

(** X4: a logout puts back the first profile, empties the results and
    shows the input tab, but it keeps the metrics and cancels nothing: a
    run in flight that settles after the logout stores its results, and
    the next user to log in finds them on the results tab. *)
Theorem handleLogout_scope sh (env : Env) (res : list (gmap string JSValue))
    (userData : User.UserData) :
  let out := Shell.handleLogout sh in
  let late :=
    Shell.handleLogin userData
      (Shell.onApp
         (fun st => (Shell.runAnalysis_resume P env (Fulfilled res) st).1) out) in
  profile (Shell.app out) = profile (initialState INITIAL_SCHEMES) /\
  results (Shell.app out) = [] /\
  activeTab (Shell.app out) = TabInput /\
  metrics (Shell.app out) = metrics (Shell.app sh) /\
  Shell.isAuthenticated late = true /\
  results (Shell.app late) = res /\
  activeTab (Shell.app late) = TabResults /\
  profile (Shell.app late) = profile (initialState INITIAL_SCHEMES).
Proof. cbn. split_and!; done. Qed.

End ShellFacts.

(** ** Merging into the profile *)

Section MergeAlgebra.
Import Gemini App.
Implicit Types (p : gmap string JSValue) (a b v : JSValue) (st : AppState).

Lemma merge_nothing p v : ownProps v = ∅ -> merge p v = p.
Proof. intros Hv. rewrite merge_union, Hv. apply (left_id_L ∅ (∪)). Qed.

Lemma handleProfileExtracted_nothing v st :
  ownProps v = ∅ -> handleProfileExtracted v st = st.
Proof.
  intros Hv. unfold handleProfileExtracted, setProfile.
  rewrite (merge_nothing _ _ Hv). by destruct st.
Qed.

(** X5: merges compose, the later one winning: two updates in a row are
    one update with the second laid over the first, whichever handler
    brings them.  No update takes a property off the profile, and an update
    that is [null], [undefined], a boolean, a number or an empty object
    changes nothing. *)
Theorem merge_composes p a b st :
  merge (merge p a) b = merge p (JSObject (merge (ownProps a) b)) /\
  handleProfileExtracted b (handleManualChange a st)
  = handleManualChange (JSObject (merge (ownProps a) b)) st /\
  dom (merge p a) = dom (ownProps a) ∪ dom p /\
  merge p JSNull = p /\ merge p JSUndefined = p /\
  (forall flag, merge p (JSBool flag) = p) /\
  (forall x, merge p (JSNumber x) = p) /\
  merge p (JSObject ∅) = p.
Proof.
  assert (forall q, merge (merge q a) b
                    = merge q (JSObject (merge (ownProps a) b))) as Hcompose.
  { intros q. rewrite !merge_union. cbn [ownProps]. by rewrite (assoc_L (∪)). }
  split_and!; try (intros; by apply merge_nothing).
  - apply Hcompose.
  - unfold handleProfileExtracted, handleManualChange, setProfile.
    cbn [profile results isLoading activeTab metrics]. by rewrite Hcompose.
  - rewrite merge_union. apply dom_union_L.
Qed.

End MergeAlgebra.

(** ** From a recognition result to the profile *)

Section PipelineFacts.
Import Gemini App Voice Button.
Context (P : Platform).
Implicit Types (st : VoiceState) (ast : AppState) (said : string).

(** X6: a recognition result always ends with the component neither
    listening nor processing and the transcript shown.  When the service
    answers, what it answered is merged into the profile and no error is
    added; an answer that does not parse leaves the application as it was,
    silently.  When the call fails, the application is as it was and the
    component shows the failure. *)
Theorem heard_outcomes said (response : Response) st ast (s : Session) :
  recognition st = Some s ->
  fires s (OnResult said) = true ->
  exists st' ast',
    heard P said response st ast = Some (st', ast') /\
    isProcessing st' = false /\ isListening st' = false /\
    transcript st' = said /\
    results ast' = results ast /\ metrics ast' = metrics ast /\
    match response with
    | Rejects e =>
        ast' = ast /\
        error st' = Some "Failed to process your request. Please try speaking again."
    | Responds body =>
        error st' = error st /\
        profile ast' = merge (profile ast)
                         (default (JSObject ∅) (parse_text P body)) /\
        (parse_text P body = None -> ast' = ast)
    end.
Proof.
  intros Hrec Hfires. unfold heard, deliver. rewrite Hrec, Hfires.
  cbn [onresult_begin]. unfold onresult_resume.
  cbn [resume extractProfileFromText].
  destruct response as [e|body].
  - eexists _, _. split; [reflexivity|]. cbn. split_and!; done.
  - destruct (parse_text P body) as [v|] eqn:Hparse.
    + eexists _, _. split; [reflexivity|]. cbn. split_and!; done.
    + eexists _, _. split; [reflexivity|]. cbn. split_and!; try done.
      intros _. by apply handleProfileExtracted_nothing.
Qed.

End PipelineFacts.

(** ** Starting, stopping and ending a capture *)

Section ButtonFacts.
Import Gemini Voice Button.
Context (P : Platform).
Implicit Types (st : VoiceState) (s : Session) (perm : Permission).

(** X8: with the microphone granted, [startListening] starts a session
    exactly when the recognition object is not in one; on an object whose
    session has not ended it shows the microphone error and leaves the
    session as it was.  Either way the component then shows listening and
    the transcript is cleared. *)
Theorem startListening_granted st s :
  recognition st = Some s ->
  isListening (startListening Granted st).1 = true /\
  transcript (startListening Granted st).1 = "" /\
  (s = Inactive ->
   recognition (startListening Granted st).1 = Some Active /\
   error (startListening Granted st).1 = None /\
   (startListening Granted st).2 = [GetUserMedia; RecognitionStart]) /\
  (s ≠ Inactive ->
   recognition (startListening Granted st).1 = Some s /\
   error (startListening Granted st).1
   = Some "Could not start microphone. Ensure no other app is using it.").
Proof.
  destruct st as [lis said proc err rec]. cbn [recognition]. intros ->.
  destruct s; cbn; split_and!; try done; intros; by split_and!.
Qed.

(** X9: when the microphone is refused, recognition is not started: the
    session and the listening flag are as before, and the error shown is
    one of three, by the name of the refusal. *)
Theorem startListening_refused st s (err : JSError) :
  recognition st = Some s ->
  recognition (startListening (Refused err) st).1 = Some s /\
  isListening (startListening (Refused err) st).1 = isListening st /\
  (RecognitionStart ∉ (startListening (Refused err) st).2) /\
  error (startListening (Refused err) st).1 = Some (microphoneError err) /\
  (err_name err = "NotAllowedError" \/ err_name err = "PermissionDeniedError" ->
   microphoneError err
   = "Microphone permission denied. Please allow microphone access in your browser settings.") /\
  (err_name err = "NotFoundError" \/ err_name err = "DevicesNotFoundError" ->
   microphoneError err
   = "No microphone found. Please connect a microphone and try again.") /\
  (err_name err ∉ ["NotAllowedError"; "PermissionDeniedError";
                   "NotFoundError"; "DevicesNotFoundError"] ->
   microphoneError err
   = "Could not start microphone. Ensure no other app is using it.").
Proof.
  destruct st as [lis said proc shown rec]. cbn [recognition]. intros ->. cbn.
  split_and!; try done.
  - intros Hin. repeat (apply elem_of_cons in Hin as [?|Hin]; [done|]).
    by apply elem_of_nil in Hin.
  - unfold microphoneError. by intros [-> | ->].
  - unfold microphoneError. by intros [-> | ->].
  - intros Hother. unfold microphoneError.
    repeat match goal with
           | |- context [String.eqb ?x ?y] =>
               destruct (String.eqb_spec x y) as [Heq|?];
               [exfalso; apply Hother; rewrite Heq;
                repeat ((apply list_elem_of_here) || (apply list_elem_of_further))|]
           end.
    done.
Qed.

Lemma handleClick_unsupported perm st :
  recognition st = None -> isListening st = false ->
  (handleClick perm st).2 = [] /\
  isListening (handleClick perm st).1 = false /\
  recognition (handleClick perm st).1 = None /\
  (isProcessing st = false ->
   error (handleClick perm st).1
   = Some "Speech recognition is not supported in this browser. Please try Chrome or Edge.").
Proof.
  intros Hrec Hlis. unfold handleClick. rewrite Hlis.
  destruct (isProcessing st); [by split_and!|].
  unfold startListening, startListening_begin.
  cbn [recognition setTranscript setError]. rewrite Hrec. cbn. by split_and!.
Qed.

(** X10: in a browser without speech recognition, no sequence of clicks on
    the microphone button has any effect outside the component: the
    microphone is never asked for, nothing is started or stopped, and the
    component never shows listening. *)
Theorem clicks_unsupported (perms : list Permission) st :
  recognition st = None -> isListening st = false ->
  (clicks perms st).2 = [] /\
  isListening (clicks perms st).1 = false /\
  recognition (clicks perms st).1 = None.
Proof.
  revert st. induction perms as [|perm perms IH]; intros st Hrec Hlis; [done|].
  destruct (handleClick_unsupported perm st Hrec Hlis) as (Hfx & Hlis' & Hrec' & _).
  cbn [clicks]. destruct (handleClick perm st) as [st1 fx1]. cbn in *.
  destruct (IH st1 Hrec' Hlis') as (Hfx2 & ? & ?).
  destruct (clicks perms st1) as [st2 fx2]. cbn in *. by subst.
Qed.

Lemma cleanup_silent st : silent (cleanup st).1.
Proof.
  unfold silent, cleanup. destruct (recognition st) as [[]|] eqn:Hrec; cbn; auto.
Qed.

Lemma step_silent (a : Action) st st' :
  a ≠ PermissionSettled Granted ->
  silent st -> step P a st = Some st' -> silent st'.
Proof.
  unfold silent. destruct st as [lis said proc err rec]. cbn [recognition].
  intros Ha Hsilent Hstep.
  destruct a as [|[|e]| |ev|t response|]; cbn in Hstep; try done.
  - injection Hstep as <-. unfold startListening_begin. cbn.
    destruct rec; cbn; auto.
  - injection Hstep as <-. cbn. done.
  - injection Hstep as <-. unfold stopListening. cbn.
    destruct Hsilent as [-> | [-> | ->]]; cbn; auto.
  - unfold deliver in Hstep.
    destruct ev, Hsilent as [-> | [-> | ->]]; cbn in Hstep; try done;
      injection Hstep as <-; cbn; auto.
  - injection Hstep as <-. unfold onresult_resume.
    destruct (resume _ _) as [[v|e] fx]; cbn; done.
  - injection Hstep as <-. unfold cleanup. cbn.
    destruct Hsilent as [-> | [-> | ->]]; cbn; auto.
Qed.

Lemma silent_no_result said st :
  silent st -> step P (Fired (OnResult said)) st = None.
Proof.
  unfold silent. cbn. unfold deliver.
  by intros [-> | [-> | ->]].
Qed.

Lemma steps_silent (actions : list Action) said st :
  silent st ->
  PermissionSettled Granted ∉ actions ->
  Fired (OnResult said) ∈ actions ->
  steps P actions st = None.
Proof.
  revert st. induction actions as [|a actions IH]; intros st Hsilent Hno Hin.
  - by apply elem_of_nil in Hin.
  - cbn [steps]. apply not_elem_of_cons in Hno as [Ha Hno].
    apply elem_of_cons in Hin as [<-|Hin].
    + by rewrite (silent_no_result said st Hsilent).
    + destruct (step P a st) as [st'|] eqn:Hstep; [|done].
      apply IH; [|done|done]. eapply step_silent; [|exact Hsilent|exact Hstep].
      by intros ->.
Qed.

(** X11: once the cleanup of the component has run, no result of the
    recognition reaches its handler, whatever happens next, until the
    recognition is started again: a sequence of actions without a granted
    start and with a result in it cannot take place. *)
Theorem no_result_after_cleanup (actions : list Action) said st :
  PermissionSettled Granted ∉ actions ->
  Fired (OnResult said) ∈ actions ->
  steps P actions (cleanup st).1 = None.
Proof.
  intros Hno Hin. apply (steps_silent actions said); [|done|done].
  apply cleanup_silent.
Qed.

(** X12: starting, stopping and letting the session end leaves no session
    behind: after any number of such rounds the recognition object is
    inactive again, the component is not listening, and, a round having
    taken place, no error is shown; every start in them was accepted. *)
Theorem cycles_leave_no_session (n : nat) st :
  recognition st = Some Inactive ->
  exists st',
    cycles P n st = Some st' /\
    recognition st' = Some Inactive /\
    isProcessing st' = isProcessing st /\
    (0 < n -> isListening st' = false /\ error st' = None /\ transcript st' = "").
Proof.
  revert st. induction n as [|n IH]; intros st Hrec.
  - exists st. split_and!; [done|done|done|lia].
  - destruct st as [lis said proc err rec]. cbn [recognition] in Hrec.
    subst rec. cbn.
    match goal with |- context [cycles P n ?x] => set (st1 := x) end.
    destruct (IH st1 eq_refl) as (st' & Hcycles & Hrec' & Hproc & Hrest).
    exists st'. split_and!; [done|done|done|]. intros _.
    destruct n as [|n]; [|apply Hrest; lia].
    cbn in Hcycles. injection Hcycles as <-. by split_and!.
Qed.

(** X13: an error of the recognition is shown and can be retried: the
    error event ends listening and shows the message for its code, the
    [end] event that follows leaves the message in place, and the next
    start, once granted, clears it and listens again. *)
Theorem onerror_recovers (code : string) st :
  listening st ->
  exists st1 st2,
    deliver P (OnError code) st = Some (st1, [ConsoleError "Speech Recognition Error"]) /\
    phase st1 = Failed /\
    error st1 = Some (recognitionError code) /\
    deliver P OnEnd st1 = Some (st2, []) /\
    error st2 = Some (recognitionError code) /\
    recognition st2 = Some Inactive /\
    listening (startListening Granted st2).1.
Proof.
  destruct st as [lis said proc shown rec]. unfold listening, phase.
  cbn [isProcessing isListening error recognition].
  intros (Hphase & -> & ->). destruct proc; [done|]. destruct lis; [|done].
  eexists _, _. split; [reflexivity|]. cbn. by split_and!.
Qed.

End ButtonFacts.

(** ** Speech synthesis *)

Section SpeechFacts.
Import Gemini Speech.

Lemma inlineAudio_carrying (audio : JSValue) :
  member (carrying audio) "candidates"
  = Some (JSArray [JSObject {[ "content" :=
            JSObject {[ "parts" :=
              JSArray [JSObject {[ "inlineData" :=
                JSObject {[ "data" := audio ]} ]}] ]} ]}]) /\
  inlineAudio (JSArray [JSObject {[ "content" :=
            JSObject {[ "parts" :=
              JSArray [JSObject {[ "inlineData" :=
                JSObject {[ "data" := audio ]} ]}] ]} ]}]) = audio.
Proof. split; vm_compute; reflexivity. Qed.

(** X14: [generateSpeech], unlike the other two calls of the service,
    never throws.  It gives the audio of a response that carries one and
    [null] otherwise, never an empty or otherwise falsy value: [null] with
    a logged error when the call fails or answers [null], and [null]
    without a word when the response has no candidate or no audio. *)
Theorem generateSpeech_result (words : string) (settled : SpeechResponse) :
  ((generateSpeech words settled).1 = JSNull
   \/ truthy (generateSpeech words settled).1 = true) /\
  (forall audio,
     generateSpeech words (Returns (carrying audio))
     = (if truthy audio then audio else JSNull, [])) /\
  (forall e, generateSpeech words (Fails e)
             = (JSNull, [ConsoleError "TTS failed"])) /\
  generateSpeech words (Returns JSNull) = (JSNull, [ConsoleError "TTS failed"]) /\
  generateSpeech words (Returns (JSObject ∅)) = (JSNull, []) /\
  generateSpeech words (Returns (JSObject {[ "candidates" := JSArray [] ]}))
  = (JSNull, []).
Proof.
  split_and!; try reflexivity.
  - unfold generateSpeech. destruct settled as [e|response]; [by left|].
    destruct (member response "candidates") as [candidates|]; [|by left].
    destruct (truthy (inlineAudio candidates)) eqn:Haudio; [by right|by left].
  - intros audio. unfold generateSpeech.
    destruct (inlineAudio_carrying audio) as [-> ->].
    by destruct (truthy audio).
Qed.

End SpeechFacts.

(** ** Logging in *)

Section AuthFacts.
Import AuthForm.
Implicit Types (st : FormState) (edits : list Edit).

Lemma edit_keeps_login_mode st edits :
  ToggleMode ∉ edits -> isLogin st = true ->
  name (foldl edit st edits) = name st.
Proof.
  revert st. induction edits as [|e edits IH]; intros st Hno Hmode; [done|].
  apply not_elem_of_cons in Hno as [He Hno]. cbn [foldl].
  destruct e as [v|v|v|]; [| | |done]; cbn [edit];
    rewrite ?Hmode; by rewrite IH.
Qed.

(** X15: whatever was typed into the form, the password included, a
    submitted form logs in when its timer fires: the application becomes
    authenticated for the email typed and a name that is never empty, the
    name typed or else Farmer.  A user who never switched to sign-up could
    not type a name and is always called Farmer. *)
Theorem submit_logs_in edits (sh : Shell.ShellState) :
  let st := foldl edit initialState edits in
  let loading := (handleSubmit st).1 in
  let fired := (handleSubmit st).2.2 loading in
  let sh' := Shell.handleLogin fired.1 sh in
  isLoading loading = true /\ (handleSubmit st).2.1 = 1200 /\
  isLoading fired.2 = false /\
  Shell.isAuthenticated sh' = true /\ Shell.user sh' = Some fired.1 /\
  Shell.app sh' = Shell.app sh /\
  User.email fired.1 = email st /\
  User.name fired.1 ≠ "" /\
  (name st ≠ "" -> User.name fired.1 = name st) /\
  (ToggleMode ∉ edits -> User.name fired.1 = "Farmer").
Proof.
  cbn zeta. cbn [handleSubmit timeoutCallback fst snd User.email User.name
                 Shell.handleLogin Shell.isAuthenticated Shell.user Shell.app
                 isLoading setIsLoading].
  split_and!; try done.
  - destruct (String.eqb_spec (name (foldl edit initialState edits)) "");
      [done|done].
  - intros Hname.
    by destruct (String.eqb_spec (name (foldl edit initialState edits)) "").
  - intros Hno. by rewrite (edit_keeps_login_mode initialState edits Hno eq_refl).
Qed.

End AuthFacts.

(** ** The further properties at work *)

Section MoreExamples.
Import Gemini Voice Button.

Lemma reachable_consistent_witness :
  exists sh,
    Shell.reachable Demo.platform Demo.guidelines Demo.catalog sh /\
    length (App.results (Shell.app sh)) = 2 /\
    App.eligibleCount (App.metrics (Shell.app sh)) = 1 /\
    Shell.consistent Demo.catalog (Shell.app sh).
Proof.
  assert (exists sh,
            Shell.reachable Demo.platform Demo.guidelines Demo.catalog sh /\
            length (App.results (Shell.app sh)) = 2 /\
            App.eligibleCount (App.metrics (Shell.app sh)) = 1)
    as (sh & Hreach & Hlen & Hcount).
  { eexists. split.
    - eapply Shell.reachable_step
        with (a := Shell.AnalysisSettled Demo.goodRun Demo.rajesh).
      + eapply Shell.reachable_step with (a := Shell.AnalysisStarted).
        * eapply Shell.reachable_step
            with (a := Shell.FormChanged (JSObject Demo.rajesh)).
          -- apply Shell.reachable_init.
          -- reflexivity.
        * reflexivity.
      + vm_compute. reflexivity.
    - split; vm_compute; reflexivity. }
  exists sh. split; [exact Hreach|]. split; [exact Hlen|]. split; [exact Hcount|].
  exact (reachable_consistent Demo.platform Demo.guidelines Demo.catalog sh Hreach).
Defined.

Lemma heard_outcomes_witness :
  recognition Demo.capturing = Some Active /\
  exists st' ast',
    heard Demo.platform "I am Rajesh" (Responds (Some "not json"))
      Demo.capturing Demo.state = Some (st', ast') /\
    isProcessing st' = false /\ ast' = Demo.state.
Proof.
  split; [reflexivity|].
  destruct (heard_outcomes Demo.platform "I am Rajesh"
              (Responds (Some "not json")) Demo.capturing Demo.state Active
              eq_refl eq_refl)
    as (st' & ast' & Hheard & Hproc & _ & _ & _ & _ & _ & _ & Hsame).
  exists st', ast'. split; [exact Hheard|]. split; [exact Hproc|].
  apply Hsame. reflexivity.
Defined.

Lemma startListening_granted_witness :
  recognition (initialState true) = Some Inactive /\
  recognition (startListening Granted (initialState true)).1 = Some Active.
Proof.
  split; [reflexivity|].
  destruct (startListening_granted (initialState true) Inactive eq_refl)
    as (_ & _ & Hstart & _).
  exact (proj1 (Hstart eq_refl)).
Defined.

Lemma startListening_refused_witness :
  recognition (initialState true) = Some Inactive /\
  error (startListening (Refused (mkError "NotAllowedError" "denied"))
           (initialState true)).1
  = Some "Microphone permission denied. Please allow microphone access in your browser settings.".
Proof.
  split; [reflexivity|].
  destruct (startListening_refused (initialState true) Inactive
              (mkError "NotAllowedError" "denied") eq_refl)
    as (_ & _ & _ & Herror & Hdenied & _).
  rewrite Herror, (Hdenied (or_introl eq_refl)). reflexivity.
Defined.

Lemma clicks_unsupported_witness :
  recognition (initialState false) = None /\
  (clicks [Granted; Granted] (initialState false)).2 = [].
Proof.
  split; [reflexivity|].
  exact (proj1 (clicks_unsupported [Granted; Granted] (initialState false)
                  eq_refl eq_refl)).
Defined.

Lemma no_result_after_cleanup_witness :
  steps Demo.platform [StopClicked; Fired (OnResult "I am Rajesh")]
    (cleanup Demo.capturing).1 = None.
Proof.
  apply (no_result_after_cleanup Demo.platform
           [StopClicked; Fired (OnResult "I am Rajesh")] "I am Rajesh"
           Demo.capturing).
  - intros Hin. apply elem_of_cons in Hin as [Hin|Hin]; [discriminate|].
    apply elem_of_cons in Hin as [Hin|Hin]; [discriminate|].
    by apply elem_of_nil in Hin.
  - apply list_elem_of_further, list_elem_of_here.
Defined.

Lemma cycles_leave_no_session_witness :
  recognition (initialState true) = Some Inactive /\
  exists st', cycles Demo.platform 2 (initialState true) = Some st' /\
              recognition st' = Some Inactive.
Proof.
  split; [reflexivity|].
  destruct (cycles_leave_no_session Demo.platform 2 (initialState true) eq_refl)
    as (st' & Hcycles & Hrec & _).
  exists st'. split; [exact Hcycles|exact Hrec].
Defined.

Lemma onerror_recovers_witness :
  listening Demo.capturing /\
  exists st1,
    deliver Demo.platform (OnError "no-speech") Demo.capturing
    = Some (st1, [ConsoleError "Speech Recognition Error"]) /\
    error st1 = Some "No speech detected. Please try again.".
Proof.
  assert (listening Demo.capturing) as Hlistening by (by split_and!).
  split; [exact Hlistening|].
  destruct (onerror_recovers Demo.platform "no-speech" Demo.capturing Hlistening)
    as (st1 & st2 & Hfired & _ & Herror & _).
  exists st1. split; [exact Hfired|exact Herror].
Defined.

Lemma submit_logs_in_witness :
  let edits := [AuthForm.TypeEmail "rajesh@farmer.com";
                AuthForm.TypeName "Rajesh"; AuthForm.TypePassword ""] in
  (AuthForm.ToggleMode ∉ edits) /\
  User.name
    ((AuthForm.handleSubmit (foldl AuthForm.edit AuthForm.initialState edits)).2.2
       (AuthForm.handleSubmit (foldl AuthForm.edit AuthForm.initialState edits)).1).1
  = "Farmer".
Proof.
  cbn zeta.
  assert (AuthForm.ToggleMode
          ∉ [AuthForm.TypeEmail "rajesh@farmer.com";
             AuthForm.TypeName "Rajesh"; AuthForm.TypePassword ""]) as Hno.
  { intros Hin. repeat (apply elem_of_cons in Hin as [Hin|Hin]; [discriminate|]).
    by apply elem_of_nil in Hin. }
  split; [exact Hno|].
  destruct (submit_logs_in
              [AuthForm.TypeEmail "rajesh@farmer.com";
               AuthForm.TypeName "Rajesh"; AuthForm.TypePassword ""]
              (Shell.initialState Demo.catalog))
    as (_ & _ & _ & _ & _ & _ & _ & _ & _ & Hfarmer).
  exact (Hfarmer Hno).
Defined.

End MoreExamples.

(** ** What the evaluator sends *)

Section PromptFacts.
Import Gemini Text.

Lemma append_assoc (a b c : string) : (a ++ b) ++ c = a ++ b ++ c.
Proof.
  induction a as [|x a IH]; [reflexivity|].
  change (String x ((a ++ b) ++ c) = String x (a ++ b ++ c)). by f_equal.
Qed.

Lemma labelled_here (label value post : string) :
  labelled label value (label ++ value ++ post).
Proof. by exists "", post. Qed.

Lemma labelled_skip (a label value hay : string) :
  labelled label value hay -> labelled label value (a ++ hay).
Proof.
  intros (pre & post & ->). exists (a ++ pre), post. by rewrite append_assoc.
Qed.

Lemma labelled_char (c : Ascii.ascii) (label value hay : string) :
  labelled label value hay -> labelled label value (String c hay).
Proof. apply (labelled_skip (String c EmptyString)). Qed.

Lemma labelled_literal (c : Ascii.ascii) (literal label value rest : string) :
  labelled label value (literal ++ rest) ->
  labelled label value (String c literal ++ rest).
Proof. apply labelled_char. Qed.

(** Find a label at the end of the literal text that precedes its value. *)
Ltac find_label :=
  repeat first [ exact (labelled_here _ _ _) | apply labelled_literal ].

Context (P : Platform) (SCHEME_GUIDELINES : gmap string string).

(** The prompt shows every field of the profile and the guidelines, each
    after its label. *)
Lemma eligibilityPrompt_labels (profile : gmap string JSValue)
    (guidelines : JSValue) :
  labelled "Name: " (ToString P (get profile "name"))
    (eligibilityPrompt P profile guidelines) /\
  labelled "State: " (ToString P (get profile "state"))
    (eligibilityPrompt P profile guidelines) /\
  labelled "Land Holding: " (ToString P (get profile "landHolding"))
    (eligibilityPrompt P profile guidelines) /\
  labelled "Category: " (ToString P (get profile "category"))
    (eligibilityPrompt P profile guidelines) /\
  labelled "Crop: " (ToString P (get profile "cropType"))
    (eligibilityPrompt P profile guidelines) /\
  labelled "SCHEME GUIDELINES:
    " (ToString P guidelines) (eligibilityPrompt P profile guidelines).
Proof.
  unfold eligibilityPrompt. split_and!.
  - find_label.
  - apply labelled_skip, labelled_skip. find_label.
  - do 4 apply labelled_skip. find_label.
  - do 6 apply labelled_skip. find_label.
  - do 8 apply labelled_skip. find_label.
  - do 10 apply labelled_skip. find_label.
Qed.

(** How the guideline value of an id is found. *)
Lemma guidelinesFor_cases (schemeId : string) :
  (forall text, SCHEME_GUIDELINES !! schemeId = Some text -> text ≠ "" ->
     guidelinesFor P SCHEME_GUIDELINES schemeId = JSString text) /\
  (SCHEME_GUIDELINES !! schemeId = Some "" ->
     guidelinesFor P SCHEME_GUIDELINES schemeId = JSString "No guidelines found.") /\
  (SCHEME_GUIDELINES !! schemeId = None ->
     guidelinesFor P SCHEME_GUIDELINES schemeId =
       if truthy (get (Object_prototype P) schemeId)
       then get (Object_prototype P) schemeId
       else JSString "No guidelines found.").
Proof.
  unfold guidelinesFor, guidelineEntry, js_or. split_and!.
  - intros text -> Htext. cbn. by apply String.eqb_neq in Htext as ->.
  - by intros ->.
  - by intros ->.
Qed.

(** X7: the request of the evaluator shows the five fields of the profile
    and the guideline value, each after its label, and depends on the
    scheme only through that value: ids with the same guideline value get
    the same request.  The value is the text of the table when there is a
    non-empty one, the placeholder for an empty text, and for an id without
    an entry the member that the table inherits under that name when it is
    truthy, and the placeholder otherwise. *)
Theorem request_contents (profile : gmap string JSValue) (id1 id2 : string) :
  let sent := contents (request (checkEligibility P SCHEME_GUIDELINES profile id1)) in
  labelled "Name: " (ToString P (get profile "name")) sent /\
  labelled "State: " (ToString P (get profile "state")) sent /\
  labelled "Land Holding: " (ToString P (get profile "landHolding")) sent /\
  labelled "Category: " (ToString P (get profile "category")) sent /\
  labelled "Crop: " (ToString P (get profile "cropType")) sent /\
  labelled "SCHEME GUIDELINES:
    " (ToString P (guidelinesFor P SCHEME_GUIDELINES id1)) sent /\
  (guidelinesFor P SCHEME_GUIDELINES id1 = guidelinesFor P SCHEME_GUIDELINES id2 ->
   request (checkEligibility P SCHEME_GUIDELINES profile id1)
   = request (checkEligibility P SCHEME_GUIDELINES profile id2)) /\
  (forall text, SCHEME_GUIDELINES !! id1 = Some text -> text ≠ "" ->
     guidelinesFor P SCHEME_GUIDELINES id1 = JSString text) /\
  (SCHEME_GUIDELINES !! id1 = Some "" ->
     guidelinesFor P SCHEME_GUIDELINES id1 = JSString "No guidelines found.") /\
  (SCHEME_GUIDELINES !! id1 = None ->
     guidelinesFor P SCHEME_GUIDELINES id1 =
       if truthy (get (Object_prototype P) id1)
       then get (Object_prototype P) id1
       else JSString "No guidelines found.").
Proof.
  cbn zeta. cbn [request contents checkEligibility].
  destruct (eligibilityPrompt_labels profile (guidelinesFor P SCHEME_GUIDELINES id1))
    as (H1 & H2 & H3 & H4 & H5 & H6).
  destruct (guidelinesFor_cases id1) as (H7 & H8 & H9).
  split_and!; try done. by intros ->.
Qed.

End PromptFacts.

Section PromptExamples.
Import Gemini Text.

Lemma request_contents_witness :
  guidelinesFor Demo.platform Demo.guidelines "kcc"
  = guidelinesFor Demo.platform Demo.guidelines "pmfby" /\
  request (checkEligibility Demo.platform Demo.guidelines Demo.rajesh "kcc")
  = request (checkEligibility Demo.platform Demo.guidelines Demo.rajesh "pmfby") /\
  labelled "Name: " "Rajesh"
    (contents (request (checkEligibility Demo.platform Demo.guidelines
                          Demo.rajesh "pm-kisan"))) /\
  labelled "SCHEME GUIDELINES:
    " "Small and marginal farmers with up to 2 hectares."
    (contents (request (checkEligibility Demo.platform Demo.guidelines
                          Demo.rajesh "pm-kisan"))) /\
  guidelinesFor Demo.platform Demo.guidelines "kcc" = JSString "No guidelines found.".
Proof.
  assert (guidelinesFor Demo.platform Demo.guidelines "kcc"
          = guidelinesFor Demo.platform Demo.guidelines "pmfby") as Hsame
    by reflexivity.
  destruct (request_contents Demo.platform Demo.guidelines Demo.rajesh "kcc" "pmfby")
    as (_ & _ & _ & _ & _ & _ & Hrequest & _ & _ & Hunknown).
  destruct (request_contents Demo.platform Demo.guidelines Demo.rajesh
              "pm-kisan" "pm-kisan")
    as (Hname & _ & _ & _ & _ & Htext & _).
  split_and!; [exact Hsame|exact (Hrequest Hsame)|exact Hname|exact Htext
              |exact (Hunknown eq_refl)].
Defined.

End PromptExamples.

Section InheritedGuidelines.
Import Gemini Text.

(** C7: the code breaks the claim at the unknown id [toString].  The read
    of the table finds the function that every object inherits under that
    name, which is truthy, so the evaluation does not use the placeholder:
    it goes on, without throwing, with the source text of the function as
    the guidelines of the prompt. *)
Theorem checkEligibility_inherited_guidelines :
  let call := checkEligibility Demo.platform Demo.guidelines Demo.rajesh "toString" in
  Demo.guidelines !! "toString" = None /\
  guidelinesFor Demo.platform Demo.guidelines "toString"
  = JSFunction "function toString() { [native code] }" /\
  labelled "SCHEME GUIDELINES:
    " "function toString() { [native code] }" (contents (request call)) /\
  contains "No guidelines found." (contents (request call)) = false /\
  settle call (Responds (Some Demo.eligibleText))
  = Fulfilled (eligibilityResult Demo.platform
                 (JSObject {[ "isEligible" := JSBool true ]}) "toString").
Proof.
  cbn zeta. split_and!; try reflexivity.
  apply (eligibilityPrompt_labels Demo.platform Demo.rajesh
           (JSFunction "function toString() { [native code] }")).
Qed.

(** An id that names nothing, inherited or not, does get the placeholder. *)
Example checkEligibility_placeholder :
  let call := checkEligibility Demo.platform Demo.guidelines Demo.rajesh "kcc" in
  labelled "SCHEME GUIDELINES:
    " "No guidelines found." (contents (request call)) /\
  contains "No guidelines found." (contents (request call)) = true.
Proof.
  cbn zeta. split; [|reflexivity].
  apply (eligibilityPrompt_labels Demo.platform Demo.rajesh
           (JSString "No guidelines found.")).
Qed.

End InheritedGuidelines.

(** ** The metrics of a successful run *)

Section MetricsFacts.
Import Gemini App Spec Text.

(** The digit after the point, as the decimal printer writes it. *)
Lemma pretty_digit (d : Z) :
  (0 <= d < 10)%Z -> pretty (Z.to_N d) = String (digit d) EmptyString.
Proof.
  intros Hd.
  assert (exists k : nat, d = Z.of_nat k /\ k < 10) as (k & -> & Hk).
  { exists (Z.to_nat d). lia. }
  do 10 (destruct k as [|k]; [reflexivity|]). lia.
Qed.

Lemma show_tenths_oneDecimal (n : Z) : show_tenths n = oneDecimal n.
Proof.
  unfold show_tenths, oneDecimal.
  by rewrite (pretty_digit (n mod 10) (Z.mod_pos_bound n 10 eq_refl)).
Qed.

Lemma count_strict_verdicts (res : list (gmap string JSValue)) :
  Forall strictVerdict res ->
  length (List.filter (fun r => truthy (get r "isEligible")) res)
  = length (List.filter isEligibleTrue res).
Proof.
  induction 1 as [|r res Hr _ IH]; [done|]. cbn [List.filter].
  assert (truthy (get r "isEligible") = isEligibleTrue r) as ->.
  { unfold strictVerdict, isEligibleTrue in *.
    destruct (truthy (get r "isEligible")) eqn:Htruthy.
    - by rewrite (Hr eq_refl).
    - by destruct (get r "isEligible") as [| |[]| | | | |]. }
  destruct (isEligibleTrue r); cbn [length]; by rewrite IH.
Qed.

(** *** Division by 1000 and rounding to one decimal

    The elapsed time is a whole number of milliseconds, so it is a double
    of 53 digits once shifted; the division rounds a quotient of 53 or 54
    digits to nearest, less than one unit of the result away, and
    [toFixed(1)] rounds that to tenths. *)

Section Rounding.
Local Open Scope Z_scope.

Lemma digits2_bounds (p : positive) :
  2 ^ (Zpos (digits2_pos p) - 1) <= Zpos p < 2 ^ Zpos (digits2_pos p).
Proof.
  induction p as [p IH|p IH|]; cbn [digits2_pos].
  - rewrite Pos2Z.inj_succ. replace (Z.succ (Zpos (digits2_pos p)) - 1) with (Z.succ (Zpos (digits2_pos p) - 1)) by lia.
    rewrite !Z.pow_succ_r by lia. lia.
  - rewrite Pos2Z.inj_succ. replace (Z.succ (Zpos (digits2_pos p)) - 1) with (Z.succ (Zpos (digits2_pos p) - 1)) by lia.
    rewrite !Z.pow_succ_r by lia. lia.
  - cbn. lia.
Qed.

Lemma digits2_unique (p : positive) (d : Z) :
  2 ^ (d - 1) <= Zpos p < 2 ^ d -> Zpos (digits2_pos p) = d.
Proof.
  intros [Hlo Hhi]. pose proof (digits2_bounds p) as [Hlo' Hhi'].
  assert (0 < d) as Hd.
  { destruct (Z.lt_ge_cases 0 d) as [|Hneg]; [done|].
    assert (2 ^ d <= 2 ^ 0) by (apply Z.pow_le_mono_r; lia). cbn in *. lia. }
  destruct (Z.lt_trichotomy (Zpos (digits2_pos p)) d) as [Hlt|[Heq|Hgt]]; [|done|].
  - assert (2 ^ Zpos (digits2_pos p) <= 2 ^ (d - 1)) by (apply Z.pow_le_mono_r; lia). lia.
  - assert (2 ^ d <= 2 ^ (Zpos (digits2_pos p) - 1)) by (apply Z.pow_le_mono_r; lia). lia.
Qed.

Lemma iter_xO_value (p q : positive) : Zpos (Pos.iter xO p q) = Zpos p * 2 ^ Zpos q.
Proof.
  revert p. induction q as [|q IH] using Pos.peano_ind; intros p.
  - cbn. lia.
  - rewrite Pos.iter_succ, Pos2Z.inj_xO, IH, Pos2Z.inj_succ, Z.pow_succ_r by lia. lia.
Qed.

(** A 53-digit significand within the exponent range is its own rounding. *)
Lemma binary_round_aux_exact (s : bool) (m : positive) (e : Z) :
  Zpos (digits2_pos m) = 53 -> -1074 <= e <= 971 ->
  binary_round_aux 53 1024 s (Zpos m) e loc_Exact = S754_finite s m e.
Proof.
  intros Hd He.
  assert (Hshr : shr_fexp 53 1024 (Zpos m) e loc_Exact
                 = ({| shr_m := Zpos m; shr_r := false; shr_s := false |}, e)).
  { unfold shr_fexp, Zdigits2. rewrite Hd. unfold fexp, emin.
    replace (Z.max (53 + e - 53) (3 - 1024 - 53) - e) with 0 by lia. reflexivity. }
  unfold binary_round_aux. rewrite Hshr. cbn [shr_m loc_of_shr_record round_nearest_even].
  rewrite Hshr. cbn [shr_m].
  replace (e <=? 1024 - 53) with true by (symmetry; apply Z.leb_le; lia).
  reflexivity.
Qed.

(** A positive integer below 2^53 is a double: its digits, shifted up to 53. *)
Lemma binary_round_normal (s : bool) (p : positive) :
  Zpos p < 2 ^ 53 ->
  exists (m : positive) (k : Z),
    binary_round 53 1024 s p 0 = S754_finite s m (- k) /\ 0 <= k <= 52 /\
    Zpos m = Zpos p * 2 ^ k /\ Zpos (digits2_pos m) = 53.
Proof.
  intros Hlt.
  pose proof (digits2_bounds p) as [Hlo Hhi].
  set (d := Zpos (digits2_pos p)) in *.
  assert (1 <= d) by (unfold d; lia).
  assert (d <= 53) as Hd.
  { destruct (Z.le_gt_cases d 53) as [|Hgt]; [done|].
    assert (2 ^ 53 <= 2 ^ (d - 1)) by (apply Z.pow_le_mono_r; lia). lia. }
  unfold binary_round, shl_align.
  fold d. unfold fexp, emin.
  replace (Z.max (d + 0 - 53) (3 - 1024 - 53) - 0) with (d - 53) by lia.
  replace (Z.max (d + 0 - 53) (3 - 1024 - 53)) with (d - 53) by lia.
  destruct (d - 53) as [|q|q] eqn:Hq; [|lia|].
  - exists p, 0. rewrite binary_round_aux_exact by (fold d; lia).
    split; [done|]. split; [lia|]. split; [lia|]. fold d. lia.
  - assert (Hm : Zpos (Pos.iter xO p q) = Zpos p * 2 ^ Zpos q) by apply iter_xO_value.
    assert (Hdm : Zpos (digits2_pos (Pos.iter xO p q)) = 53).
    { apply digits2_unique. rewrite Hm.
      assert (2 ^ (53 - 1) = 2 ^ (d - 1) * 2 ^ Zpos q) as ->.
      { rewrite <- Z.pow_add_r by lia. f_equal. lia. }
      assert (2 ^ 53 = 2 ^ d * 2 ^ Zpos q) as ->.
      { rewrite <- Z.pow_add_r by lia. f_equal. lia. }
      assert (0 < 2 ^ Zpos q) by (apply Z.pow_pos_nonneg; lia).
      split; [apply Z.mul_le_mono_nonneg_r; lia|apply Z.mul_lt_mono_pos_r; lia]. }
    exists (Pos.iter xO p q), (Zpos q).
    rewrite binary_round_aux_exact by (done || lia).
    split; [done|]. split; [lia|]. done.
Qed.

Lemma shr_record_of_loc_m (m : Z) (l : location) : shr_m (shr_record_of_loc m l) = m.
Proof. by destruct l as [|[]]. Qed.

Lemma shr_1_m (p : positive) (l : location) :
  exists m, shr_m (shr_1 (shr_record_of_loc (Zpos p) l)) = m /\
            2 * m <= Zpos p <= 2 * m + 1.
Proof. destruct l as [|[]], p; cbn; eexists; (split; [reflexivity|lia]). Qed.

Lemma round_nearest_even_near (m : Z) (l : location) :
  m <= round_nearest_even m l <= m + 1.
Proof. destruct l as [|[]]; cbn [round_nearest_even]; try destruct (Z.even m); lia. Qed.

(** One alignment step of a significand of 53 or 54 digits. *)
Lemma shr_fexp_step (q e : Z) (l : location) :
  2 ^ 52 <= q < 2 ^ 54 -> -1074 <= e ->
  exists mrs t,
    shr_fexp 53 1024 q e l = (mrs, e + t) /\
    2 ^ 52 <= shr_m mrs < 2 ^ 53 /\
    ((t = 0 /\ shr_m mrs = q) \/
     (t = 1 /\ 2 * shr_m mrs <= q <= 2 * shr_m mrs + 1)).
Proof.
  intros [Hlo Hhi] He. destruct q as [|p|p]; [lia| |lia].
  unfold shr_fexp, Zdigits2, fexp, emin.
  destruct (Z.lt_ge_cases (Zpos p) (2 ^ 53)) as [Hsmall|Hbig].
  - rewrite (digits2_unique p 53) by (split; [exact Hlo|exact Hsmall]).
    replace (Z.max (53 + e - 53) (3 - 1024 - 53) - e) with 0 by lia.
    exists (shr_record_of_loc (Zpos p) l), 0. cbn [shr].
    rewrite shr_record_of_loc_m, Z.add_0_r. auto.
  - rewrite (digits2_unique p 54) by (split; [exact Hbig|exact Hhi]).
    replace (Z.max (54 + e - 53) (3 - 1024 - 53) - e) with 1 by lia.
    destruct (shr_1_m p l) as (m & Hm & Hbounds).
    exists (shr_1 (shr_record_of_loc (Zpos p) l)), 1. cbn [shr iter_pos].
    rewrite Hm. split; [done|]. change (2 ^ 53) with 9007199254740992 in *.
    change (2 ^ 54) with 18014398509481984 in *. change (2 ^ 52) with 4503599627370496.
    split; [lia|]. right. lia.
Qed.

(** Rounding a quotient of 53 or 54 digits to nearest moves it by less than
    one unit of the result. *)
Lemma binary_round_aux_near (s : bool) (q e : Z) (l : location) :
  2 ^ 52 <= q < 2 ^ 54 -> -1074 <= e <= 900 ->
  exists (m : positive) (t : Z),
    binary_round_aux 53 1024 s q e l = S754_finite s m (e + t) /\
    0 <= t <= 2 /\ 2 ^ 52 <= Zpos m < 2 ^ 53 /\
    (Zpos m - 1) * 2 ^ t <= q < (Zpos m + 1) * 2 ^ t.
Proof.
  intros Hq He.
  destruct (shr_fexp_step q e l Hq) as (mrs1 & t1 & Hshr1 & Hm1 & Ht1); [lia|].
  pose proof (round_nearest_even_near (shr_m mrs1) (loc_of_shr_record mrs1)) as Hr.
  set (r := round_nearest_even (shr_m mrs1) (loc_of_shr_record mrs1)) in *.
  change (2 ^ 52) with 4503599627370496 in *.
  change (2 ^ 53) with 9007199254740992 in *.
  change (2 ^ 54) with 18014398509481984 in *.
  destruct (shr_fexp_step r (e + t1) loc_Exact) as (mrs2 & t2 & Hshr2 & Hm2 & Ht2).
  { change (2 ^ 52) with 4503599627370496. change (2 ^ 54) with 18014398509481984. lia. }
  { lia. }
  change (2 ^ 52) with 4503599627370496 in *.
  change (2 ^ 53) with 9007199254740992 in *.
  unfold binary_round_aux. rewrite Hshr1. fold r. rewrite Hshr2.
  destruct (shr_m mrs2) as [|m|m] eqn:Hm; [lia| |lia].
  exists m, (t1 + t2).
  replace (e + t1 + t2 <=? 1024 - 53) with true by (symmetry; apply Z.leb_le; lia).
  rewrite Z.add_assoc. split; [done|].
  destruct Ht1 as [[-> Hq1]|[-> Hq1]], Ht2 as [[-> Hq2]|[-> Hq2]]; cbn [Z.add Z.pow Z.pow_pos Pos.iter Pos.add Z.mul Pos.mul]; lia.
Qed.


Lemma num_1000 : num 1000 = S754_finite false 8796093022208000 (-43).
Proof. reflexivity. Qed.

(** The quotient and remainder that the division of an integer double by
    1000 rounds. *)
Lemma SFdiv_core_1000 (m : positive) (k : Z) :
  Zpos (digits2_pos m) = 53 -> 0 <= k <= 52 ->
  SFdiv_core_binary 53 1024 (Zpos m) (- k) 8796093022208000 (-43)
  = (let '(q, r) := Z.div_eucl (Zpos m * 2 ^ 53) 8796093022208000 in
     (q, - k - 10, new_location 8796093022208000 r)).
Proof.
  intros Hd Hk. unfold SFdiv_core_binary. cbn [Zdigits2]. rewrite Hd.
  change (Zpos (digits2_pos 8796093022208000)) with 53.
  unfold fexp, emin.
  replace (Z.min (Z.max (53 + - k - (53 + -43) - 53) (3 - 1024 - 53)) (- k - -43))
    with (- k - 10) by lia.
  replace (- k - -43 - (- k - 10)) with 53 by lia.
  by rewrite Z.shiftl_mul_pow2.
Qed.

(** A span of [p] milliseconds, forward or back: the division by 1000 and
    [toFixed(1)] give a nearest tenth of a second, after the sign. *)
Lemma toFixed1_rounded (big : spec_float -> string) (s : bool) (p : positive) :
  Zpos p <= maxTime ->
  exists n, nearestTenth (Zpos p) n /\
            toFixed1 big (num_div (binary_round 53 1024 s p 0) (num 1000))
            = (if s then "-" else "") ++ oneDecimal n.
Proof.
  unfold maxTime, nearestTenth. intros Hhi. set (ms := Zpos p) in *.
  assert (0 < ms) as Hlo by done.
  destruct (binary_round_normal s p) as (m1 & k & Hnum & Hk & Hm1 & Hd1).
  { change (2 ^ 53) with 9007199254740992. lia. }
  fold ms in Hm1.
  pose proof (digits2_bounds m1) as Hb1. rewrite Hd1 in Hb1.
  change (2 ^ (53 - 1)) with 4503599627370496 in Hb1.
  change (2 ^ 53) with 9007199254740992 in Hb1.
  rewrite Hnum, num_1000. unfold num_div, SFdiv.
  rewrite (SFdiv_core_1000 m1 k Hd1 Hk).
  pose proof (Z_div_mod (Zpos m1 * 2 ^ 53) 8796093022208000 eq_refl) as Hdiv.
  destruct (Z.div_eucl (Zpos m1 * 2 ^ 53) 8796093022208000) as [q r].
  change (2 ^ 53) with 9007199254740992 in Hdiv. destruct Hdiv as [Hdiv Hr].
  cbv beta iota. rewrite xorb_false_r.
  destruct (binary_round_aux_near s q (- k - 10) (new_location 8796093022208000 r))
    as (m & t & -> & Ht & Hm & Hq).
  { change (2 ^ 52) with 4503599627370496. change (2 ^ 54) with 18014398509481984. lia. }
  { lia. }
  change (2 ^ 52) with 4503599627370496 in Hm.
  change (2 ^ 53) with 9007199254740992 in Hm.
  unfold toFixed1, tenths.
  replace (0 <=? - k - 10 + t) with false by (symmetry; apply Z.leb_gt; lia).
  replace (- (- k - 10 + t)) with (k + 10 - t) by lia.
  set (D := 2 ^ (k + 10 - t)).
  assert (0 < 2 ^ k) as HK by (apply Z.pow_pos_nonneg; lia).
  assert (0 < D) as HD by (apply Z.pow_pos_nonneg; lia).
  assert (D * 2 ^ t = 1024 * 2 ^ k) as HDt.
  { unfold D. rewrite <- Z.pow_add_r by lia. replace (k + 10 - t + t) with (10 + k) by lia.
    by rewrite Z.pow_add_r by lia. }
  assert (1000 * (Zpos m - 1) <= ms * D < 1000 * (Zpos m + 1)) as HA.
  { assert (t = 0 \/ t = 1 \/ t = 2) as [->|[->| ->]] by lia;
      cbn [Z.pow Z.pow_pos Pos.iter Z.mul Pos.mul] in Hq, HDt; nia. }
  assert (1024 <= D) as HD'.
  { destruct (Z.le_gt_cases 10 (k + 10 - t)) as [Hj|Hj].
    - change 1024 with (2 ^ 10). apply Z.pow_le_mono_r; lia.
    - assert (D <= 2 ^ 9) by (apply Z.pow_le_mono_r; lia).
      change (2 ^ 9) with 512 in *. nia. }
  set (n := (20 * Zpos m + D) / (2 * D)).
  assert (2 * D * n <= 20 * Zpos m + D < 2 * D * n + 2 * D) as Hn.
  { pose proof (Z.mul_div_le (20 * Zpos m + D) (2 * D) ltac:(lia)) as Hfloor.
    pose proof (Z.mul_succ_div_gt (20 * Zpos m + D) (2 * D) ltac:(lia)) as Hceil.
    fold n in Hfloor, Hceil. lia. }
  assert (D * (200 * n - 2 * ms - 100) <= 2000) as Hup by lia.
  assert (-2000 < D * (200 * n + 100 - 2 * ms)) as Hdown by lia.
  assert (0 <= n) as Hn0 by (apply Z.div_pos; lia).
  assert (- 50 <= ms - 100 * n <= 50) as Hnear by nia.
  exists n. split; [lia|].
  replace (10 ^ 22 <=? n) with false by (symmetry; apply Z.leb_gt; lia).
  by rewrite show_tenths_oneDecimal.
Qed.

(** [(ms / 1000).toFixed(1)] for every span of whole milliseconds that two
    readings of the clock can be apart: the nearest tenth of a second,
    written with one decimal. *)
Lemma toFixed1_seconds (big : spec_float -> string) (ms : Z) :
  Z.abs ms <= maxTime ->
  exists n, nearestTenth (Z.abs ms) n /\
            toFixed1 big (num_div (num ms) (num 1000))
            = (if ms <? 0 then "-" else "") ++ oneDecimal n.
Proof.
  intros Hms. destruct ms as [|p|p].
  - exists 0. split; [unfold nearestTenth; cbn; lia|reflexivity].
  - exact (toFixed1_rounded big false p Hms).
  - exact (toFixed1_rounded big true p Hms).
Qed.

End Rounding.

(** The demonstration run on a service whose answers carry the string
    [false] in place of the boolean. *)
Local Abbreviation untypedRun :=
  (runAnalysis Untyped.platform Demo.guidelines Demo.catalog
     Untyped.stringRun Demo.state).

(** C3, as stated, fails: [eligibleCount] is the number of results whose
    [isEligible] is truthy, not the number of those where it is [true].
    When the service answers both calls with [isEligible] being the string
    [false], the run succeeds, stores the two results and counts both as
    eligible, while no result has [isEligible = true]. *)
Lemma eligibleCount_counts_truthy :
  map (fun r => get r "isEligible") (results untypedRun.1)
  = [JSString "false"; JSString "false"] /\
  eligibleCount (metrics untypedRun.1) = 2 /\
  length (List.filter isEligibleTrue (results untypedRun.1)) = 0.
Proof. split_and!; vm_compute; reflexivity. Qed.

Section Metrics.
Context (P : Platform) (SCHEME_GUIDELINES : gmap string string).
Context (INITIAL_SCHEMES : list Scheme).
Implicit Types (env : Env) (st : AppState).

Local Abbreviation run := (runAnalysis P SCHEME_GUIDELINES INITIAL_SCHEMES).
Local Abbreviation checks := (eligibilityChecks P SCHEME_GUIDELINES INITIAL_SCHEMES).

(** C3, amended: a successful run stores the results, adds one to
    [checksPerformed] whatever the size of the catalog, and leaves
    [schemesAnalyzed] as it was.  It overwrites [avgResponseTime] with
    [toFixed(1)] of the elapsed seconds followed by the unit: for every
    span that two readings of the clock can be apart this is a tenth of a
    second nearest to the elapsed milliseconds, written with exactly one
    digit after the point (after a minus sign when the clock went back).
    It overwrites [eligibleCount] with the number of stored results whose
    [isEligible] is truthy, which is the number of those with
    [isEligible = true] when no result holds another truthy value there. *)
Theorem runAnalysis_metrics env st (res : list (gmap string JSValue)) :
  truthy (get (profile st) "name") = true ->
  truthy (get (profile st) "state") = true ->
  Promise.all ∅ (settlements env (checks (profile st))) (completion env)
    = Some (Fulfilled res) ->
  results (run env st).1 = res /\
  checksPerformed (metrics (run env st).1) = checksPerformed (metrics st) + 1 /\
  schemesAnalyzed (metrics (run env st).1) = schemesAnalyzed (metrics st) /\
  avgResponseTime (metrics (run env st).1)
    = toFixed1 (fun x => ToString P (JSNumber x))
               (num_div (num (endTime env - startTime env)) (num 1000)) ++ "s" /\
  ((Z.abs (endTime env - startTime env) <= maxTime)%Z ->
   exists n, nearestTenth (Z.abs (endTime env - startTime env)) n /\
     avgResponseTime (metrics (run env st).1)
     = (if (endTime env - startTime env <? 0)%Z then "-" else "")
       ++ oneDecimal n ++ "s") /\
  eligibleCount (metrics (run env st).1)
    = length (List.filter (fun r => truthy (get r "isEligible"))
                          (results (run env st).1)) /\
  (Forall strictVerdict res ->
   eligibleCount (metrics (run env st).1)
   = length (List.filter isEligibleTrue (results (run env st).1))).
Proof.
  intros Hn Hs Hall.
  rewrite (runAnalysis_unfold _ _ _ _ _ Hn Hs). cbn zeta. rewrite Hall.
  cbn [fst results metrics setIsLoading setActiveTab setMetrics setResults
       updateMetrics checksPerformed avgResponseTime eligibleCount
       schemesAnalyzed].
  split_and!; try done.
  - intros Hspan. unfold duration.
    destruct (toFixed1_seconds (fun x => ToString P (JSNumber x)) _ Hspan)
      as (n & Hnear & ->).
    exists n. split; [done|]. by destruct (_ <? _)%Z.
  - apply count_strict_verdicts.
Qed.

End Metrics.

Lemma runAnalysis_metrics_witness :
  truthy (get (profile Demo.state) "name") = true /\
  truthy (get (profile Demo.state) "state") = true /\
  (Z.abs (endTime Demo.goodRun - startTime Demo.goodRun) <= maxTime)%Z /\
  Forall strictVerdict (verdicts Demo.platform Demo.catalog Demo.goodRun) /\
  checksPerformed
    (metrics (runAnalysis Demo.platform Demo.guidelines Demo.catalog
                Demo.goodRun Demo.state).1)
  = checksPerformed (metrics Demo.state) + 1 /\
  avgResponseTime
    (metrics (runAnalysis Demo.platform Demo.guidelines Demo.catalog
                Demo.goodRun Demo.state).1) = "1.2s" /\
  eligibleCount
    (metrics (runAnalysis Demo.platform Demo.guidelines Demo.catalog
                Demo.goodRun Demo.state).1)
  = length (List.filter isEligibleTrue
              (results (runAnalysis Demo.platform Demo.guidelines Demo.catalog
                          Demo.goodRun Demo.state).1)).
Proof.
  assert (Forall strictVerdict (verdicts Demo.platform Demo.catalog Demo.goodRun))
    as Hstrict.
  { repeat constructor; vm_compute; intros Htruthy; (reflexivity || discriminate). }
  assert ((Z.abs (endTime Demo.goodRun - startTime Demo.goodRun) <= maxTime)%Z)
    as Hspan by (vm_compute; discriminate).
  destruct (runAnalysis_metrics Demo.platform Demo.guidelines Demo.catalog
              Demo.goodRun Demo.state
              (verdicts Demo.platform Demo.catalog Demo.goodRun))
    as (_ & Hchecks & _ & _ & Htime & _ & Hcount).
  - vm_compute. reflexivity.
  - vm_compute. reflexivity.
  - vm_compute. reflexivity.
  - destruct (Htime Hspan) as (n & [Hn0 Hnear] & Havg).
    change (endTime Demo.goodRun - startTime Demo.goodRun)%Z with 1234%Z in Hnear.
    assert (n = 12%Z) as -> by lia.
    split_and!; [vm_compute; reflexivity|vm_compute; reflexivity|exact Hspan
                |exact Hstrict|exact Hchecks|exact Havg|exact (Hcount Hstrict)].
Defined.

End MetricsFacts.
